(** * pragents: the workflow orchestration core, embedded in Rocq

    A shallow embedding of the Python sources
      - [src/agents/base_agent.py]   (AgentStatus, AgentResult, BaseAgent)
      - [src/utils/helpers.py]       (retry)
      - [src/agents/sonar_agent.py], [src/agents/git_agent.py] and the
        control skeleton of the three other agents
      - [src/workflow/state.py], [src/workflow/nodes.py],
        [src/workflow/graph.py]
      - [src/api/routes/workflow.py] (run_workflow_background,
        start_workflow, cancel_workflow)
      - [src/utils/helpers.py]       (sanitize_branch_name, truncate_string)
      - [src/config/settings.py]     (substitute_env_vars)
      - [src/llm/base.py], [src/llm/providers/openai.py],
        [src/llm/factory.py]         (the construction of providers)

    Python dictionaries are finite maps from strings ([gmap string value]),
    exceptions are values of an error monad, [self] is passed explicitly and
    everything the program reaches through the network, the file system or a
    third-party client is a field of the record [World].  Logging is left
    out: it has no influence on any returned value. *)

From Stdlib Require Import ZArith QArith Qpower Ascii String List Lia.
From stdpp Require Import gmap strings list.

(** ** Python values *)

(** A Python [float] is a rational, an infinity or a NaN.  The program only
    compares coverage figures and doubles delays, both of which are exact on
    floats, so the finite ones are kept as rationals. *)
Inductive pyfloat : Type :=
| Finite (q : Q)
| PosInf
| NegInf
| NaN.

#[warnings="-register-all"]
Inductive value : Type :=
| VNone
| VBool (b : bool)
| VInt (n : Z)
| VFloat (x : pyfloat)
| VStr (s : string)
| VList (items : list value)
| VDict (entries : list (string * value)).

(** [dict]: the contexts handed to agents, the [data] and [metadata] of a
    result, the workflow state and the partial updates of the nodes. *)
Abbreviation dict := (gmap string value).

(** The numeric tower as far as [<] sees it: [bool] is a subclass of [int],
    and an [int] is compared with a [float] by value. *)
Definition as_number (v : value) : option pyfloat :=
  match v with
  | VBool b => Some (Finite (if b then 1 else 0))
  | VInt n => Some (Finite (inject_Z n))
  | VFloat x => Some x
  | _ => None
  end.

(** [x < y] on floats: false as soon as a NaN is involved. *)
Definition float_lt (x y : pyfloat) : bool :=
  match x, y with
  | NaN, _ | _, NaN => false
  | Finite p, Finite q => match (p ?= q)%Q with Lt => true | _ => false end
  | NegInf, NegInf => false
  | NegInf, _ => true
  | _, NegInf => false
  | PosInf, _ => false
  | _, PosInf => true
  end.

(** ** Exceptions *)

(** An exception carries the name of its class, the names of the classes it
    derives from, and the text [str(e)] gives. *)
Record exn : Type := Exn {
  exn_type : string;
  exn_bases : list string;
  exn_msg : string
}.

Definition isinstance (e : exn) (cls : string) : bool :=
  existsb (String.eqb cls) (exn_type e :: exn_bases e).

Definition Exception_bases : list string := ["Exception"; "BaseException"].

Definition ValueError (msg : string) : exn :=
  Exn "ValueError" Exception_bases msg.
Definition TypeError (msg : string) : exn :=
  Exn "TypeError" Exception_bases msg.
Definition RuntimeError (msg : string) : exn :=
  Exn "RuntimeError" Exception_bases msg.
(** [class AgentError(Exception)] *)
Definition AgentError (msg : string) : exn :=
  Exn "AgentError" Exception_bases msg.
(** [str(KeyError(k))] is [repr(k)]: the key between single quotes, for a key
    free of quotes and escapes, as all key literals of the program are. *)
Definition KeyError (k : string) : exn :=
  Exn "KeyError" ("LookupError" :: Exception_bases) ("'" +:+ k +:+ "'").
Definition KeyboardInterrupt : exn :=
  Exn "KeyboardInterrupt" ["BaseException"] "".

(** What a call does: it returns or it raises. *)
Inductive outcome (A : Type) : Type :=
| Returns (a : A)
| Raises (e : exn).
Arguments Returns {A} a.
Arguments Raises {A} e.

#[export] Instance outcome_ret : MRet outcome := fun A a => Returns a.

#[export] Instance outcome_bind : MBind outcome := fun A B k m =>
  match m with
  | Returns a => k a
  | Raises e => Raises e
  end.

#[export] Instance outcome_fmap : FMap outcome := fun A B f m =>
  match m with
  | Returns a => Returns (f a)
  | Raises e => Raises e
  end.

(** [d[k]] *)
Definition subscript (d : dict) (k : string) : outcome value :=
  match d !! k with
  | Some v => Returns v
  | None => Raises (KeyError k)
  end.

(** [d.get(k, dflt)] *)
Definition get_default (d : dict) (k : string) (dflt : value) : value :=
  match d !! k with
  | Some v => v
  | None => dflt
  end.

(** [d.get(k)] *)
Definition get (d : dict) (k : string) : value := get_default d k VNone.

(** [k in d] *)
Definition contains (d : dict) (k : string) : bool :=
  match d !! k with
  | Some _ => true
  | None => false
  end.

(** [x < y]: defined between numbers and between strings; a number against
    anything else, [None] and dictionaries raise [TypeError].  Two lists,
    which Python orders element by element, are not compared anywhere in the
    program and are rejected here in the same way. *)
Definition py_lt (x y : value) : outcome bool :=
  match as_number x, as_number y with
  | Some a, Some b => Returns (float_lt a b)
  | _, _ =>
      match x, y with
      | VStr s, VStr t => Returns (String.ltb s t)
      | _, _ => Raises (TypeError "'<' not supported between these operands")
      end
  end.

(** [v != s] for a string literal [s] *)
Definition ne_str (v : value) (s : string) : bool :=
  match v with
  | VStr t => negb (String.eqb t s)
  | _ => true
  end.

(** [sep.join(l)] *)
Definition join (sep : string) (l : list string) : string := String.concat sep l.

(** ** base_agent.py *)

Inductive AgentStatus : Type :=
| PENDING
| RUNNING
| SUCCESS
| FAILED
| SKIPPED.

Definition AgentStatus_value (s : AgentStatus) : string :=
  match s with
  | PENDING => "pending"
  | RUNNING => "running"
  | SUCCESS => "success"
  | FAILED => "failed"
  | SKIPPED => "skipped"
  end.

Definition AgentStatus_eqb (a b : AgentStatus) : bool :=
  String.eqb (AgentStatus_value a) (AgentStatus_value b).

Record AgentResult : Type := {
  status : AgentStatus;
  data : dict;
  error : option string;
  metadata : dict
}.

(** [AgentResult.__init__]: [data or {}] and [metadata or {}] turn a missing
    argument into the empty dictionary. *)
Definition AgentResult_init (st : AgentStatus) (d : option dict)
    (err : option string) (md : option dict) : AgentResult :=
  {| status := st;
     data := default ∅ d;
     error := err;
     metadata := default ∅ md |}.

Definition is_success (r : AgentResult) : bool :=
  AgentStatus_eqb (status r) SUCCESS.

(** [BaseAgent]: the abstract class.  [execute] is the abstract method; it
    may update [self], so it hands back the agent next to what it returns or
    raises. *)
Class BaseAgent (A : Type) : Type := {
  name : A -> string;
  execute : A -> dict -> outcome AgentResult * A
}.

(** [BaseAgent.validate_context] *)
Definition validate_context (agent_name : string) (context : dict)
    (required_keys : list string) : outcome unit :=
  let missing_keys :=
    List.filter (fun key => negb (contains context key)) required_keys in
  match missing_keys with
  | [] => Returns tt
  | _ :: _ =>
      Raises (ValueError
        (agent_name +:+ " missing required context keys: "
           +:+ join ", " missing_keys))
  end.

(** [BaseAgent.run]: [except Exception] sees the exceptions that derive from
    [Exception]; any other one leaves [run] as it came. *)
Definition run {A : Type} `{BaseAgent A} (self : A) (context : dict)
    : outcome AgentResult * A :=
  match execute self context with
  | (Returns result, self') => (Returns result, self')
  | (Raises e, self') =>
      if isinstance e "Exception"
      then (Returns (AgentResult_init FAILED None (Some (exn_msg e))
                       (Some {[ "exception_type" := VStr (exn_type e) ]})),
            self')
      else (Raises e, self')
  end.

(** A step given by what its [execute] does on each context, with no state
    of its own: the general form of a stateless agent. *)
Record Step : Type := {
  step_name : string;
  step_execute : dict -> outcome AgentResult
}.

#[export] Instance Step_agent : BaseAgent Step := {
  name := step_name;
  execute := fun self context => (step_execute self context, self)
}.

(** "The error is present iff the status is Failed." *)
Definition error_iff_failed (r : AgentResult) : Prop :=
  is_Some (error r) <-> status r = FAILED.

(** What [execute] of the agents of the repository returns: a success or a
    skip, never with an error. *)
Definition clean_result (r : AgentResult) : Prop :=
  error r = None /\ status r <> FAILED.

(** [k] occurs in [msg]. *)
Definition mentions (msg k : string) : Prop :=
  exists pre post : string, msg = pre +:+ k +:+ post.

(** ** helpers.py: retry *)

(** What one call of the wrapper leaves behind, next to its result: how many
    times the wrapped function was invoked and the arguments of the
    successive [time.sleep] calls. *)
Record RetryLog : Type := {
  invocations : nat;
  slept : list Q
}.

Definition log_call (l : RetryLog) : RetryLog :=
  {| invocations := S (invocations l); slept := slept l |}.

Definition log_sleep (d : Q) (l : RetryLog) : RetryLog :=
  {| invocations := invocations l; slept := slept l ++ [d] |}.

(** [time.sleep(d)] is the interpreter's: it returns after [d] seconds, or
    it raises at once, [ValueError] for a negative length and
    [OverflowError] for one too large for the clock.  [time_sleep d] is what
    the call does; a sleep that returns is logged. *)
Definition sleep (time_sleep : Q -> outcome unit) (d : Q) (l : RetryLog)
    : outcome unit * RetryLog :=
  match time_sleep d with
  | Raises e => (Raises e, l)
  | Returns _ => (Returns tt, log_sleep d l)
  end.

(** [range(lo, hi)] *)
Definition py_range (lo hi : Z) : list Z :=
  List.map (fun i => (lo + Z.of_nat i)%Z) (seq 0 (Z.to_nat (hi - lo))).

(** [except exceptions as e]: [exceptions] is a tuple of classes. *)
Definition caught_by (exceptions : list string) (e : exn) : bool :=
  existsb (isinstance e) exceptions.

Section Retry.

Context {T : Type}.

(** [time.sleep], as above. *)
Variable time_sleep : Q -> outcome unit.

(** The arguments of [retry]. *)
Variable max_attempts : Z.
Variable delay : Q.
Variable exponential_backoff : bool.
Variable exceptions : list string.

(** The decorated function with its arguments applied: what its [i]-th
    invocation (counted from 0) does. *)
Variable func : nat -> outcome T.

(** The body of [for attempt in range(1, max_attempts + 1)], followed by the
    statements after the loop. *)
Fixpoint retry_loop (attempts : list Z) (current_delay : Q)
    (last_exception : option exn) (l : RetryLog) : outcome T * RetryLog :=
  match attempts with
  | [] =>
      match last_exception with
      | Some e => (Raises e, l)
      | None => (Raises (RuntimeError "Unexpected retry loop exit"), l)
      end
  | attempt :: rest =>
      match func (invocations l) with
      | Returns v => (Returns v, log_call l)
      | Raises e =>
          let l := log_call l in
          if caught_by exceptions e then
            if (attempt =? max_attempts)%Z then (Raises e, l)
            else
              match sleep time_sleep current_delay l with
              | (Raises e', l) => (Raises e', l)
              | (Returns _, l) =>
                  retry_loop rest
                    (if exponential_backoff then (current_delay * 2)%Q
                     else current_delay)
                    (Some e) l
              end
          else (Raises e, l)
      end
  end.

(** [wrapper] *)
Definition retry : outcome T * RetryLog :=
  retry_loop (py_range 1 (max_attempts + 1)) delay None
    {| invocations := 0; slept := [] |}.

End Retry.

Definition OverflowError (msg : string) : exn :=
  Exn "OverflowError" ("ArithmeticError" :: Exception_bases) msg.
Definition OSError (msg : string) : exn :=
  Exn "OSError" Exception_bases msg.

(** [time.sleep] of CPython on a clock that counts nanoseconds on 64 bits:
    a negative length raises [ValueError], a length of 9223372037 seconds
    (2^63 nanoseconds, rounded up) or more raises [OverflowError], and a
    length up to 9 * 10^9 seconds is slept.  Between the two the call
    returns or is refused according to the value the clock has reached; the
    examples use no such length, which is given the [OSError] of a deadline
    the clock cannot hold. *)
Definition cpython_sleep (d : Q) : outcome unit :=
  match (d ?= 0)%Q with
  | Lt => Raises (ValueError "sleep length must be non-negative")
  | _ =>
      match (d ?= 9000000000)%Q with
      | Gt =>
          match (d ?= 9223372037)%Q with
          | Lt => Raises (OSError "[Errno 22] Invalid argument")
          | _ => Raises (OverflowError
                           "timestamp too large to convert to C _PyTime_t")
          end
      | _ => Returns tt
      end
  end.

(** ** workflow/state.py *)

(** [WorkflowState] is a [TypedDict] with [total=False]: at run time a plain
    dictionary in which every key may be absent. *)
Abbreviation WorkflowState := (gmap string value).

(** Modelled from the spec: the merge of a node's partial update into the
    state, which the graph library (not part of the sources) performs after
    each node; "shallow per-key overwrite (a key present in the partial
    update replaces the prior value; absent keys are untouched)". *)
Definition merge (s p : WorkflowState) : WorkflowState := p ∪ s.

(** ** The outside world *)

(** The settings the nodes read ([get_settings()]), as far as they reach a
    returned value. *)
Record Settings : Type := {
  git_base_branch : string;
  git_branch_prefix : string;
  sonarqube_url : string;
  test_generation_framework : string;
  workflow_max_tests_per_file : Z
}.

(** Everything behind the agents: each field is the net effect of the part
    of an agent method that talks to git, to the SonarQube server, to the
    language model, to Azure DevOps, to the file system or to the clock.  It
    receives the context of the call and returns the payload the method then
    wraps into an [AgentResult], or raises what that part raises. *)
Record World : Type := {
  settings : Settings;
  (** [str(v)] for a value that is not a string *)
  str_of : value -> string;
  (** [str(Path("./workspaces") / repo_name)] *)
  workspace_path : string -> string;
  (** [datetime.now().strftime("%Y%m%d-%H%M%S")] *)
  now_strftime : string;
  (** [datetime.now().isoformat()] *)
  now_isoformat : string;
  (** [GitAgent._clone_repository] after validation: [str(local_path)] *)
  git_clone : dict -> outcome string;
  (** [GitAgent._create_branch] after the guard: the branch name *)
  git_create_branch : dict -> outcome string;
  (** [GitAgent._commit_changes] after validation: the commit hash, or
      nothing when there is nothing to commit *)
  git_commit : dict -> outcome (option string);
  (** [GitAgent._push_changes] after the guard: the branch pushed *)
  git_push : dict -> outcome string;
  (** [SonarQubeAgent._fetch_metrics] *)
  fetch_metrics : value -> outcome dict;
  (** [SonarQubeAgent._fetch_coverage_details] *)
  fetch_coverage_details : value -> outcome dict;
  (** [AnalyzerAgent.execute] after validation: the candidates *)
  analyze : dict -> outcome (list value);
  (** [LLMFactory.create_from_config(settings.llm)] *)
  create_llm : outcome unit;
  (** [TestGeneratorAgent.execute] after validation: the generated tests and
      the test files written *)
  generate : dict -> outcome (list value * list value);
  (** [PRAzureDevOpsAgent.__init__]: the connection to Azure DevOps *)
  pr_connect : outcome unit;
  (** [PRAzureDevOpsAgent.execute] after validation: [pr_id] and [pr_url] *)
  create_pull_request : dict -> outcome (value * string)
}.

(** [str(v)] and [f"{v}"] *)
Definition py_str (w : World) (v : value) : string :=
  match v with
  | VStr s => s
  | _ => str_of w v
  end.

(** [v == s] for a string literal [s] *)
Definition eq_str (v : value) (s : string) : bool := negb (ne_str v s).

(** An [Optional[str]] as a value. *)
Definition of_optional_str (o : option string) : value :=
  match o with
  | Some s => VStr s
  | None => VNone
  end.

(** ** sonar_agent.py *)

Record SonarQubeAgent : Type := {
  sonar_url : string;
  sonar_fetch_metrics : value -> outcome dict;
  sonar_fetch_coverage_details : value -> outcome dict
}.

(** [SonarQubeAgent.execute] *)
Definition SonarQubeAgent_execute (self : SonarQubeAgent) (context : dict)
    : outcome AgentResult :=
  _ ← validate_context "SonarQubeAgent" context ["project_key"];
  project_key ← subscript context "project_key";
  let body : outcome AgentResult :=
    metrics_data ← sonar_fetch_metrics self project_key;
    coverage_details ← sonar_fetch_coverage_details self project_key;
    let coverage_value :=
      get_default metrics_data "coverage" (VFloat (Finite 0)) in
    mret (AgentResult_init SUCCESS
      (Some (<[ "project_key" := project_key ]>
            (<[ "coverage" := coverage_value ]>
            (<[ "metrics" := VDict (map_to_list metrics_data) ]>
            (<[ "uncovered_lines" :=
                  get_default coverage_details "uncovered_lines" (VList []) ]>
            (<[ "uncovered_files" :=
                  get_default coverage_details "uncovered_files" (VList []) ]>
             ∅))))))
      None
      (Some {[ "sonar_url" := VStr (sonar_url self) ]})) in
  match body with
  | Returns r => Returns r
  | Raises e =>
      if isinstance e "Exception"
      then Raises (AgentError ("SonarQube API error: " +:+ exn_msg e))
      else Raises e
  end.

#[export] Instance SonarQubeAgent_agent : BaseAgent SonarQubeAgent := {
  name := fun _ => "SonarQubeAgent";
  execute := fun self context => (SonarQubeAgent_execute self context, self)
}.

(** ** git_agent.py *)

Record GitAgent : Type := {
  base_branch : string;
  branch_prefix : string;
  (** [self.repo], [None] until a clone succeeds *)
  repo : bool;
  git_world : World
}.

Definition GitAgent_set_repo (self : GitAgent) : GitAgent :=
  {| base_branch := base_branch self;
     branch_prefix := branch_prefix self;
     repo := true;
     git_world := git_world self |}.

Definition not_initialized : exn :=
  AgentError "Repository not initialized. Run clone operation first.".

(** [GitAgent._clone_repository] *)
Definition GitAgent_clone_repository (self : GitAgent) (context : dict)
    : outcome AgentResult * GitAgent :=
  match validate_context "GitAgent" context ["repo_url"; "local_path"] with
  | Raises e => (Raises e, self)
  | Returns _ =>
      match git_clone (git_world self) context with
      | Raises e => (Raises e, self)
      | Returns local_path =>
          (Returns (AgentResult_init SUCCESS
             (Some (<[ "repo_path" := VStr local_path ]>
                   (<[ "current_branch" := VStr (base_branch self) ]> ∅)))
             None
             (Some {[ "operation" := VStr "clone" ]})),
           GitAgent_set_repo self)
      end
  end.

(** [GitAgent._create_branch] *)
Definition GitAgent_create_branch (self : GitAgent) (context : dict)
    : outcome AgentResult :=
  if negb (repo self) then Raises not_initialized
  else
    branch_name ← git_create_branch (git_world self) context;
    mret (AgentResult_init SUCCESS
      (Some {[ "branch_name" := VStr branch_name ]})
      None
      (Some {[ "operation" := VStr "create_branch" ]})).

(** [GitAgent._commit_changes] *)
Definition GitAgent_commit_changes (self : GitAgent) (context : dict)
    : outcome AgentResult :=
  if negb (repo self) then Raises not_initialized
  else
    _ ← validate_context "GitAgent" context ["commit_message"];
    commit_message ← subscript context "commit_message";
    commit ← git_commit (git_world self) context;
    match commit with
    | None =>
        mret (AgentResult_init SKIPPED
          (Some {[ "message" := VStr "No changes to commit" ]})
          None
          (Some {[ "operation" := VStr "commit" ]}))
    | Some hexsha =>
        mret (AgentResult_init SUCCESS
          (Some (<[ "commit_sha" := VStr hexsha ]>
                (<[ "commit_message" := commit_message ]> ∅)))
          None
          (Some {[ "operation" := VStr "commit" ]}))
    end.

(** [GitAgent._push_changes] *)
Definition GitAgent_push_changes (self : GitAgent) (context : dict)
    : outcome AgentResult :=
  if negb (repo self) then Raises not_initialized
  else
    current_branch ← git_push (git_world self) context;
    mret (AgentResult_init SUCCESS
      (Some {[ "pushed_branch" := VStr current_branch ]})
      None
      (Some {[ "operation" := VStr "push" ]})).

(** [GitAgent.execute]: its [except Exception] clause logs and re-raises. *)
Definition GitAgent_execute (self : GitAgent) (context : dict)
    : outcome AgentResult * GitAgent :=
  let operation := get_default context "operation" (VStr "clone") in
  if eq_str operation "clone" then GitAgent_clone_repository self context
  else if eq_str operation "create_branch"
       then (GitAgent_create_branch self context, self)
  else if eq_str operation "commit"
       then (GitAgent_commit_changes self context, self)
  else if eq_str operation "push"
       then (GitAgent_push_changes self context, self)
  else (Raises (AgentError ("Unknown operation: "
                              +:+ py_str (git_world self) operation)), self).

#[export] Instance GitAgent_agent : BaseAgent GitAgent := {
  name := fun _ => "GitAgent";
  execute := GitAgent_execute
}.

(** ** analyzer_agent.py, test_gen_agent.py, pr_agent.py *)

Record AnalyzerAgent : Type := {
  analyzer_body : dict -> outcome (list value)
}.

(** [AnalyzerAgent.execute] *)
Definition AnalyzerAgent_execute (self : AnalyzerAgent) (context : dict)
    : outcome AgentResult :=
  _ ← validate_context "AnalyzerAgent" context ["repo_path"; "uncovered_files"];
  test_candidates ← analyzer_body self context;
  mret (AgentResult_init SUCCESS
    (Some (<[ "test_candidates" := VList test_candidates ]>
          (<[ "total_candidates" :=
                VInt (Z.of_nat (length test_candidates)) ]> ∅)))
    None
    (Some {[ "analyzed_files" := VInt (Z.of_nat (length test_candidates)) ]})).

#[export] Instance AnalyzerAgent_agent : BaseAgent AnalyzerAgent := {
  name := fun _ => "AnalyzerAgent";
  execute := fun self context => (AnalyzerAgent_execute self context, self)
}.

Record TestGeneratorAgent : Type := {
  test_framework : string;
  generator_body : dict -> outcome (list value * list value)
}.

(** [TestGeneratorAgent.execute] *)
Definition TestGeneratorAgent_execute (self : TestGeneratorAgent)
    (context : dict) : outcome AgentResult :=
  _ ← validate_context "TestGeneratorAgent" context
        ["test_candidates"; "repo_path"];
  '(generated_tests, test_files_created) ← generator_body self context;
  mret (AgentResult_init SUCCESS
    (Some (<[ "generated_tests" := VList generated_tests ]>
          (<[ "test_files" := VList test_files_created ]>
          (<[ "total_generated" :=
                VInt (Z.of_nat (length generated_tests)) ]> ∅))))
    None
    (Some {[ "framework" := VStr (test_framework self) ]})).

#[export] Instance TestGeneratorAgent_agent : BaseAgent TestGeneratorAgent := {
  name := fun _ => "TestGeneratorAgent";
  execute := fun self context => (TestGeneratorAgent_execute self context, self)
}.

Record PRAzureDevOpsAgent : Type := {
  pr_base_branch : string;
  pr_body : dict -> outcome (value * string)
}.

(** [PRAzureDevOpsAgent.execute] *)
Definition PRAzureDevOpsAgent_execute (self : PRAzureDevOpsAgent)
    (context : dict) : outcome AgentResult :=
  _ ← validate_context "PRAzureDevOpsAgent" context
        ["repository_id"; "source_branch"; "pr_title"];
  repository_id ← subscript context "repository_id";
  source_branch ← subscript context "source_branch";
  pr_title ← subscript context "pr_title";
  '(pr_id, pr_url) ← pr_body self context;
  mret (AgentResult_init SUCCESS
    (Some (<[ "pr_id" := pr_id ]>
          (<[ "pr_url" := VStr pr_url ]>
          (<[ "source_branch" := source_branch ]>
          (<[ "target_branch" := VStr (pr_base_branch self) ]>
          (<[ "title" := pr_title ]> ∅))))))
    None
    (Some {[ "repository" := repository_id ]})).

#[export] Instance PRAzureDevOpsAgent_agent : BaseAgent PRAzureDevOpsAgent := {
  name := fun _ => "PRAzureDevOpsAgent";
  execute := fun self context => (PRAzureDevOpsAgent_execute self context, self)
}.

(** ** workflow/nodes.py *)

(** [url.split("/")[-1]]: what follows the last slash. *)
Fixpoint after_last_slash (s acc : string) : string :=
  match s with
  | EmptyString => acc
  | String c s' =>
      if Ascii.eqb c "/"%char then after_last_slash s' ""
      else after_last_slash s' (acc +:+ String c "")
  end.

(** [s.replace(".git", "")]; [skip] counts the characters of an occurrence
    still to be dropped. *)
Fixpoint remove_dot_git (skip : nat) (s : string) : string :=
  match s with
  | EmptyString => ""
  | String c s' =>
      match skip with
      | S k => remove_dot_git k s'
      | O =>
          if String.prefix ".git" s then remove_dot_git 3 s'
          else String c (remove_dot_git 0 s')
      end
  end.

(** The dictionary every node returns when its agent did not succeed. *)
Definition failed_update (result : AgentResult) (step : string) : dict :=
  <[ "errors" := VList [of_optional_str (error result)] ]>
  (<[ "status" := VStr "failed" ]>
  (<[ "current_step" := VStr step ]> ∅)).

Section Nodes.

(** The nodes in a process whose settings are loaded: [settings w] is what
    the [get_settings()] call that opens each of them returns.  The call
    itself, which raises when the settings cannot be loaded, is put back by
    [node_in] further down. *)
Context (w : World).

Definition new_GitAgent : GitAgent :=
  {| base_branch := git_base_branch (settings w);
     branch_prefix := git_branch_prefix (settings w);
     repo := false;
     git_world := w |}.

Definition clone_repository_node (state : WorkflowState) : outcome dict :=
  let git_agent := new_GitAgent in
  repo_url ← subscript state "repo_url";
  repo_name ←
    match repo_url with
    | VStr url => Returns (remove_dot_git 0 (after_last_slash url ""))
    | _ => Raises (Exn "AttributeError" Exception_bases
                       "object has no attribute 'split'")
    end;
  let local_path := workspace_path w repo_name in
  result ← (run git_agent
              (<[ "operation" := VStr "clone" ]>
              (<[ "repo_url" := repo_url ]>
              (<[ "local_path" := VStr local_path ]> ∅)))).1;
  if is_success result then
    repo_path ← subscript (data result) "repo_path";
    mret (<[ "repo_path" := repo_path ]>
         (<[ "current_step" := VStr "clone" ]>
         (<[ "repository_id" := VStr repo_name ]> ∅)))
  else mret (failed_update result "clone").

Definition check_coverage_node (state : WorkflowState) : outcome dict :=
  let sonar_agent :=
    {| sonar_url := sonarqube_url (settings w);
       sonar_fetch_metrics := fetch_metrics w;
       sonar_fetch_coverage_details := fetch_coverage_details w |} in
  project_key ← subscript state "sonar_project_key";
  result ← (run sonar_agent {[ "project_key" := project_key ]}).1;
  if is_success result then
    coverage ← subscript (data result) "coverage";
    metrics ← subscript (data result) "metrics";
    uncovered_files ← subscript (data result) "uncovered_files";
    mret (<[ "coverage_before" := coverage ]>
         (<[ "coverage_metrics" := metrics ]>
         (<[ "uncovered_files" := uncovered_files ]>
         (<[ "current_step" := VStr "check_coverage" ]> ∅))))
  else mret (failed_update result "check_coverage").

Definition should_generate_tests (state : WorkflowState) : outcome string :=
  let coverage := get_default state "coverage_before" (VInt 0) in
  let threshold := get_default state "coverage_threshold" (VInt 90) in
  below ← py_lt coverage threshold;
  if below : bool then mret "analyze_code" else mret "end".

Definition analyze_code_node (state : WorkflowState) : outcome dict :=
  let analyzer_agent := {| analyzer_body := analyze w |} in
  repo_path ← subscript state "repo_path";
  result ← (run analyzer_agent
              (<[ "repo_path" := repo_path ]>
              (<[ "uncovered_files" :=
                    get_default state "uncovered_files" (VList []) ]> ∅))).1;
  if is_success result then
    test_candidates ← subscript (data result) "test_candidates";
    mret (<[ "test_candidates" := test_candidates ]>
         (<[ "current_step" := VStr "analyze_code" ]> ∅))
  else mret (failed_update result "analyze_code").

Definition generate_tests_node (state : WorkflowState) : outcome dict :=
  _ ← create_llm w;
  let test_gen_agent :=
    {| test_framework := test_generation_framework (settings w);
       generator_body := generate w |} in
  test_candidates ← subscript state "test_candidates";
  repo_path ← subscript state "repo_path";
  result ← (run test_gen_agent
              (<[ "test_candidates" := test_candidates ]>
              (<[ "repo_path" := repo_path ]>
              (<[ "max_tests" :=
                    VInt (workflow_max_tests_per_file (settings w)) ]> ∅)))).1;
  if is_success result then
    generated_tests ← subscript (data result) "generated_tests";
    test_files ← subscript (data result) "test_files";
    mret (<[ "generated_tests" := generated_tests ]>
         (<[ "test_files" := test_files ]>
         (<[ "current_step" := VStr "generate_tests" ]> ∅)))
  else mret (failed_update result "generate_tests").

Definition create_pr_node (state : WorkflowState) : outcome dict :=
  let git_agent := new_GitAgent in
  let timestamp := now_strftime w in
  let '(branch_run, git_agent) :=
    run git_agent
      (<[ "operation" := VStr "create_branch" ]>
      (<[ "branch_name" :=
            VStr (git_branch_prefix (settings w) +:+ "-" +:+ timestamp) ]>
      (<[ "timestamp" := VStr timestamp ]> ∅))) in
  branch_result ← branch_run;
  if negb (is_success branch_result)
  then mret (failed_update branch_result "create_pr")
  else
    branch_name ← subscript (data branch_result) "branch_name";
    files_to_add ← subscript state "test_files";
    let '(commit_run, git_agent) :=
      run git_agent
        (<[ "operation" := VStr "commit" ]>
        (<[ "commit_message" :=
              VStr "Add generated unit tests to improve code coverage" ]>
        (<[ "files_to_add" := files_to_add ]> ∅))) in
    commit_result ← commit_run;
    if negb (is_success commit_result)
       && negb (String.eqb (AgentStatus_value (status commit_result)) "skipped")
    then mret (failed_update commit_result "create_pr")
    else
      let '(push_run, git_agent) :=
        run git_agent {[ "operation" := VStr "push" ]} in
      push_result ← push_run;
      if negb (is_success push_result)
      then mret (failed_update push_result "create_pr")
      else
        _ ← pr_connect w;
        let pr_agent :=
          {| pr_base_branch := git_base_branch (settings w);
             pr_body := create_pull_request w |} in
        repository_id ← subscript state "repository_id";
        test_files ← subscript state "test_files";
        pr_result ← (run pr_agent
          (<[ "repository_id" := repository_id ]>
          (<[ "source_branch" := branch_name ]>
          (<[ "pr_title" :=
                VStr ("Improve code coverage - " +:+ timestamp) ]>
          (<[ "pr_description" :=
                VStr "Automated code coverage improvement with generated unit tests" ]>
          (<[ "test_files" := test_files ]>
          (<[ "coverage_before" := get state "coverage_before" ]> ∅))))))).1;
        if is_success pr_result then
          pr_id ← subscript (data pr_result) "pr_id";
          pr_url ← subscript (data pr_result) "pr_url";
          mret (<[ "branch_name" := branch_name ]>
               (<[ "pr_id" := pr_id ]>
               (<[ "pr_url" := pr_url ]>
               (<[ "status" := VStr "success" ]>
               (<[ "current_step" := VStr "create_pr" ]> ∅)))))
        else mret (failed_update pr_result "create_pr").

End Nodes.

(** ** workflow/graph.py *)

(** Where an edge leads: a registered node or the terminal marker. *)
Inductive target : Type :=
| Node (node_name : string)
| END.

Definition NodeFn : Type := WorkflowState -> outcome dict.
Definition RouterFn : Type := WorkflowState -> outcome string.

(** Modelled from the spec: the graph of the library [langgraph], which is
    not part of the sources: "the set of registered nodes, the entry node
    name, and the edge table (unconditional + conditional)". *)
Record StateGraph : Type := {
  nodes : list (string * NodeFn);
  entry_point : option string;
  edges : list (string * target);
  conditional_edges : list (string * (RouterFn * list (string * target)))
}.

(** The first entry registered under [k]. *)
Fixpoint assoc {V : Type} (k : string) (l : list (string * V)) : option V :=
  match l with
  | [] => None
  | (k', v) :: rest => if String.eqb k k' then Some v else assoc k rest
  end.

Definition StateGraph_init : StateGraph :=
  {| nodes := []; entry_point := None; edges := []; conditional_edges := [] |}.

(** Modelled from the spec: the registration operations of the graph
    builder ([add_node], [set_entry_point], [add_edge],
    [add_conditional_edges], [compile]).  Only what they register is
    modelled; the checks the spec attaches to them reject a graph or accept
    it unchanged. *)
Definition add_node (node_name : string) (fn : NodeFn) (g : StateGraph)
    : StateGraph :=
  {| nodes := nodes g ++ [(node_name, fn)];
     entry_point := entry_point g;
     edges := edges g;
     conditional_edges := conditional_edges g |}.

Definition set_entry_point (node_name : string) (g : StateGraph) : StateGraph :=
  {| nodes := nodes g;
     entry_point := Some node_name;
     edges := edges g;
     conditional_edges := conditional_edges g |}.

Definition add_edge (source : string) (t : target) (g : StateGraph)
    : StateGraph :=
  {| nodes := nodes g;
     entry_point := entry_point g;
     edges := edges g ++ [(source, t)];
     conditional_edges := conditional_edges g |}.

Definition add_conditional_edges (source : string) (router : RouterFn)
    (label_to_target : list (string * target)) (g : StateGraph) : StateGraph :=
  {| nodes := nodes g;
     entry_point := entry_point g;
     edges := edges g;
     conditional_edges :=
       conditional_edges g ++ [(source, (router, label_to_target))] |}.

Definition compile (g : StateGraph) : StateGraph := g.

Definition graph_error (kind msg : string) : exn :=
  Exn kind Exception_bases msg.

(** Modelled from the spec: the executor of the graph library, section 4.5:
    "execute the current node, merge its returned partial state, evaluate
    any conditional router to pick the next node or terminate"; an exception
    that leaves a node or the router aborts the run.  [fuel] bounds the
    number of nodes executed; the list returned next to the result names the
    nodes executed, in order. *)
Fixpoint run_from (fuel : nat) (g : StateGraph) (current : target)
    (state : WorkflowState) (executed : list string)
    : list string * outcome WorkflowState :=
  match current with
  | END => (executed, Returns state)
  | Node n =>
      match fuel with
      | O => (executed, Raises (graph_error "GraphRecursionError" n))
      | S fuel' =>
          match assoc n (nodes g) with
          | None => (executed, Raises (graph_error "GraphDefinitionError" n))
          | Some fn =>
              let executed := executed ++ [n] in
              match fn state with
              | Raises e => (executed, Raises e)
              | Returns partial =>
                  let state := merge state partial in
                  match assoc n (conditional_edges g) with
                  | Some (router, label_to_target) =>
                      match router state with
                      | Raises e => (executed, Raises e)
                      | Returns label =>
                          match assoc label label_to_target with
                          | Some t => run_from fuel' g t state executed
                          | None =>
                              (executed,
                               Raises (graph_error "RoutingError" label))
                          end
                      end
                  | None =>
                      run_from fuel' g (default END (assoc n (edges g)))
                        state executed
                  end
              end
          end
      end
  end.

(** [graph.invoke(initial_state)] *)
Definition invoke (fuel : nat) (g : StateGraph) (initial_state : WorkflowState)
    : list string * outcome WorkflowState :=
  match entry_point g with
  | Some entry => run_from fuel g (Node entry) initial_state []
  | None => ([], Raises (graph_error "GraphDefinitionError" "no entry point"))
  end.

(** [create_workflow_graph], from graph.py. *)
Definition create_workflow_graph (w : World) : StateGraph :=
  let workflow := StateGraph_init in
  let workflow := add_node "clone_repository" (clone_repository_node w) workflow in
  let workflow := add_node "check_coverage" (check_coverage_node w) workflow in
  let workflow := add_node "analyze_code" (analyze_code_node w) workflow in
  let workflow := add_node "generate_tests" (generate_tests_node w) workflow in
  let workflow := add_node "create_pr" (create_pr_node w) workflow in
  let workflow := set_entry_point "clone_repository" workflow in
  let workflow := add_edge "clone_repository" (Node "check_coverage") workflow in
  let workflow :=
    add_conditional_edges "check_coverage" should_generate_tests
      [("analyze_code", Node "analyze_code"); ("end", END)] workflow in
  let workflow := add_edge "analyze_code" (Node "generate_tests") workflow in
  let workflow := add_edge "generate_tests" (Node "create_pr") workflow in
  let workflow := add_edge "create_pr" END workflow in
  compile workflow.

Definition compiled_workflow (w : World) : StateGraph := create_workflow_graph w.

(** ** api/models.py and api/routes/workflow.py *)

Inductive WorkflowStatus : Type :=
| WF_PENDING
| WF_RUNNING
| WF_SUCCESS
| WF_FAILED.

Definition WorkflowStatus_value (s : WorkflowStatus) : value :=
  match s with
  | WF_PENDING => VStr "pending"
  | WF_RUNNING => VStr "running"
  | WF_SUCCESS => VStr "success"
  | WF_FAILED => VStr "failed"
  end.

Record WorkflowStartRequest : Type := {
  repo_url : string;
  sonar_project_key : string;
  coverage_threshold : Z
}.

(** [d.update(u)] *)
Definition update (d u : dict) : dict := u ∪ d.

(** The state [run_workflow_background] starts the graph from. *)
Definition initial_state (w : World) (workflow_id : string)
    (request : WorkflowStartRequest) : WorkflowState :=
  <[ "repo_url" := VStr (repo_url request) ]>
  (<[ "sonar_project_key" := VStr (sonar_project_key request) ]>
  (<[ "coverage_threshold" := VInt (coverage_threshold request) ]>
  (<[ "timestamp" := VStr (now_isoformat w) ]>
  (<[ "workflow_id" := VStr workflow_id ]>
  (<[ "errors" := VList [] ]> ∅))))).

(** The status recorded for a run that came back with [result]. *)
Definition recorded_status (result : WorkflowState) : WorkflowStatus :=
  if ne_str (get result "status") "failed" then WF_SUCCESS else WF_FAILED.

(** What the [try] block writes into the entry of the run. *)
Definition completed_entry (result : WorkflowState) : dict :=
  <[ "status" := WorkflowStatus_value (recorded_status result) ]>
  (<[ "current_step" := get result "current_step" ]>
  (<[ "coverage_before" := get result "coverage_before" ]>
  (<[ "pr_url" := get result "pr_url" ]>
  (<[ "errors" := get_default result "errors" (VList []) ]>
  (<[ "result" := VDict (map_to_list result) ]> ∅))))).

(** What the [except Exception] clause writes. *)
Definition failed_entry (e : exn) : dict :=
  <[ "status" := WorkflowStatus_value WF_FAILED ]>
  (<[ "errors" := VList [VStr (exn_msg e)] ]> ∅).

(** [run_workflow_background], on the registry [workflows]: the registry it
    leaves, or the exception that escapes it. *)
Definition run_workflow_background (w : World) (fuel : nat)
    (workflows : gmap string dict) (workflow_id : string)
    (request : WorkflowStartRequest) : outcome (gmap string dict) :=
  let attempt : outcome (gmap string dict) * gmap string dict :=
    match workflows !! workflow_id with
    | None => (Raises (KeyError workflow_id), workflows)
    | Some entry =>
        let workflows :=
          <[ workflow_id :=
               <[ "status" := WorkflowStatus_value WF_RUNNING ]> entry ]>
          workflows in
        match (invoke fuel (compiled_workflow w)
                 (initial_state w workflow_id request)).2 with
        | Raises e => (Raises e, workflows)
        | Returns result =>
            (Returns (<[ workflow_id :=
                          update (<[ "status" :=
                                       WorkflowStatus_value WF_RUNNING ]> entry)
                                 (completed_entry result) ]> workflows),
             workflows)
        end
    end in
  match attempt with
  | (Returns done, _) => Returns done
  | (Raises e, workflows) =>
      if isinstance e "Exception" then
        match workflows !! workflow_id with
        | None => Raises (KeyError workflow_id)
        | Some entry =>
            Returns (<[ workflow_id := update entry (failed_entry e) ]> workflows)
        end
      else Raises e
  end.

(** ** Concrete steps, contexts and worlds, for the examples below *)

(** A step whose [execute] raises [AgentError()] with no message. *)
Definition silent_step : Step :=
  {| step_name := "SilentStep";
     step_execute := fun _ => Raises (AgentError "") |}.

(** A step interrupted from the keyboard while it executes. *)
Definition interrupted_step : Step :=
  {| step_name := "InterruptedStep";
     step_execute := fun _ => Raises KeyboardInterrupt |}.

(** A step whose [execute] fails on a missing input. *)
Definition picky_step : Step :=
  {| step_name := "PickyStep";
     step_execute := fun context =>
       _ ← validate_context "PickyStep" context ["repo_path"; "branch"];
       mret (AgentResult_init SUCCESS None None None) |}.

Definition clone_context : dict :=
  <[ "operation" := VStr "clone" ]> (<[ "repo_url" := VStr "https://h/r.git" ]> ∅).

(** An operation that fails at every invocation, each time with an error of
    its own. *)
Definition flaky_errors (i : nat) : exn :=
  RuntimeError (match i with
                | O => "first failure"
                | S O => "second failure"
                | _ => "later failure"
                end).

Definition always_failing (i : nat) : outcome unit := Raises (flaky_errors i).

Definition example_settings : Settings :=
  {| git_base_branch := "main";
     git_branch_prefix := "coverage-improvement";
     sonarqube_url := "http://sonar";
     test_generation_framework := "pytest";
     workflow_max_tests_per_file := 5 |}.

(** A world given by what cloning and what fetching the metrics do; the
    analysis finds no candidate, the generator writes nothing, and the rest
    answers. *)
Definition world_with (clone : outcome string) (metrics : outcome dict) : World :=
  {| settings := example_settings;
     str_of := fun _ => "?";
     workspace_path := fun repo_name => "workspaces/" +:+ repo_name;
     now_strftime := "20240101-000000";
     now_isoformat := "2024-01-01T00:00:00";
     git_clone := fun _ => clone;
     git_create_branch := fun _ => Returns "coverage-improvement-20240101-000000";
     git_commit := fun _ => Returns None;
     git_push := fun _ => Returns "coverage-improvement-20240101-000000";
     fetch_metrics := fun _ => metrics;
     fetch_coverage_details := fun _ => Returns ∅;
     analyze := fun _ => Returns [];
     create_llm := Returns tt;
     generate := fun _ => Returns ([], []);
     pr_connect := Returns tt;
     create_pull_request := fun _ => Returns (VInt 1, "http://pr/1") |}.

(** The clone succeeds and SonarQube reports the coverage [c]. *)
Definition healthy_world (c : Q) : World :=
  world_with (Returns "workspaces/r")
             (Returns {[ "coverage" := VFloat (Finite c) ]}).


(** The clone fails and so does SonarQube. *)
Definition failing_world : World :=
  world_with (Raises (AgentError "Failed to clone repository: timeout"))
             (Raises (AgentError "Failed to fetch metrics: 503")).

Definition example_request : WorkflowStartRequest :=
  {| repo_url := "https://dev.azure.com/org/proj/_git/r.git";
     sonar_project_key := "proj";
     coverage_threshold := 90 |}.

Definition example_state (w : World) : WorkflowState :=
  initial_state w "run-1" example_request.


(** ** Further definitions *)

(** A call that, when it raises, raises an exception deriving from
    [Exception] (not a [KeyboardInterrupt] or a [SystemExit]). *)
Definition raises_only_exceptions {A : Type} (o : outcome A) : Prop :=
  forall e, o = Raises e -> isinstance e "Exception" = true.

(** A world whose services raise nothing but exceptions deriving from
    [Exception]. *)
Definition ordinary_world (w : World) : Prop :=
  (forall c, raises_only_exceptions (git_clone w c))
  /\ (forall k, raises_only_exceptions (fetch_metrics w k))
  /\ (forall k, raises_only_exceptions (fetch_coverage_details w k))
  /\ (forall c, raises_only_exceptions (analyze w c))
  /\ (forall c, raises_only_exceptions (generate w c)).

(** *** helpers.py: the string helpers *)

(** A character of the model is a code point below 256; the tables below
    are those of Python's [str] on that range. *)
Definition code (c : ascii) : nat := nat_of_ascii c.

Definition between (lo hi n : nat) : bool := (lo <=? n) && (n <=? hi).

(** [c.isspace()] *)
Definition py_isspace (c : ascii) : bool :=
  let n := code c in
  between 9 13 n || between 28 32 n || (n =? 133) || (n =? 160).

(** [c.isalnum()] *)
Definition py_isalnum (c : ascii) : bool :=
  let n := code c in
  between 48 57 n || between 65 90 n || between 97 122 n
  || (n =? 170) || between 178 179 n || (n =? 181) || between 185 186 n
  || between 188 190 n || between 192 214 n || between 216 246 n
  || between 248 255 n.

(** [c.lower()] *)
Definition py_lower_char (c : ascii) : ascii :=
  let n := code c in
  if between 65 90 n || between 192 214 n || between 216 222 n
  then ascii_of_nat (n + 32) else c.

Fixpoint map_chars (f : ascii -> ascii) (s : string) : string :=
  match s with
  | EmptyString => EmptyString
  | String c s' => String (f c) (map_chars f s')
  end.

(** [s.lower()] *)
Definition py_lower (s : string) : string := map_chars py_lower_char s.

(** [s.lstrip(...)], [s.rstrip(...)] and [s.strip(...)] for the characters
    that satisfy [p]. *)
Fixpoint lstrip (p : ascii -> bool) (s : string) : string :=
  match s with
  | EmptyString => EmptyString
  | String c s' => if p c then lstrip p s' else s
  end.

Fixpoint rstrip (p : ascii -> bool) (s : string) : string :=
  match s with
  | EmptyString => EmptyString
  | String c s' =>
      match rstrip p s' with
      | EmptyString => if p c then EmptyString else String c EmptyString
      | r => String c r
      end
  end.

Definition strip (p : ascii -> bool) (s : string) : string :=
  rstrip p (lstrip p s).

Definition is_dash (c : ascii) : bool := Ascii.eqb c "-"%char.

(** ["--" in s] *)
Fixpoint has_double_dash (s : string) : bool :=
  match s with
  | EmptyString => false
  | String c s' =>
      match s' with
      | EmptyString => false
      | String c' _ => (is_dash c && is_dash c') || has_double_dash s'
      end
  end.

(** [s.replace("--", "-")]: the occurrences are replaced from the left and
    do not overlap. *)
Fixpoint replace_double_dash (s : string) : string :=
  match s with
  | EmptyString => EmptyString
  | String c s' =>
      match s' with
      | EmptyString => String c EmptyString
      | String c' s'' =>
          if is_dash c && is_dash c'
          then String "-"%char (replace_double_dash s'')
          else String c (replace_double_dash s')
      end
  end.

(** [while "--" in s: s = s.replace("--", "-")], at most [fuel] times. *)
Fixpoint collapse_dashes (fuel : nat) (s : string) : string :=
  match fuel with
  | O => s
  | S fuel' =>
      if has_double_dash s then collapse_dashes fuel' (replace_double_dash s)
      else s
  end.

(** The character kept for [c]: [c if c.isalnum() or c in "-_" else "-"]. *)
Definition sanitize_char (c : ascii) : ascii :=
  if py_isalnum c || Ascii.eqb c "-"%char || Ascii.eqb c "_"%char
  then c else "-"%char.

(** [sanitize_branch_name]; each turn of the loop shortens the string, so
    its length bounds the number of turns. *)
Definition sanitize_branch_name (name : string) : string :=
  let sanitized := strip py_isspace (py_lower name) in
  let sanitized := map_chars sanitize_char sanitized in
  let sanitized := collapse_dashes (String.length sanitized) sanitized in
  strip is_dash sanitized.

Fixpoint all_chars (p : ascii -> bool) (s : string) : bool :=
  match s with
  | EmptyString => true
  | String c s' => p c && all_chars p s'
  end.

Definition first_char (s : string) : option ascii :=
  match s with
  | EmptyString => None
  | String c _ => Some c
  end.

Fixpoint last_char (s : string) : option ascii :=
  match s with
  | EmptyString => None
  | String c EmptyString => Some c
  | String _ s' => last_char s'
  end.

(** The characters a sanitized name is made of: ASCII lower-case letters,
    digits, [-] and [_], and beyond ASCII the characters Python counts as
    alphanumeric and [lower()] leaves as they are. *)
Definition branch_char (c : ascii) : bool :=
  between 97 122 (code c) || between 48 57 (code c)
  || Ascii.eqb c "-"%char || Ascii.eqb c "_"%char
  || ((128 <=? code c) && py_isalnum c
      && Ascii.eqb (py_lower_char c) c).

(** [c.isalnum() or c == "_"]: the characters that are never turned into
    a hyphen nor stripped. *)
Definition word_char (c : ascii) : bool :=
  py_isalnum c || Ascii.eqb c "_"%char.

(** [len(s)] *)
Definition py_len (s : string) : Z := Z.of_nat (String.length s).

(** [s[:stop]]: a negative [stop] counts from the end. *)
Definition slice_to (s : string) (stop : Z) : string :=
  let n := if (stop <? 0)%Z then Z.max 0 (py_len s + stop) else stop in
  String.substring 0 (Z.to_nat n) s.

(** [truncate_string] *)
Definition truncate_string (s : string) (max_length : Z) (suffix : string)
    : string :=
  if (py_len s <=? max_length)%Z then s
  else slice_to s (max_length - py_len suffix) +:+ suffix.

(** *** config/settings.py: substitute_env_vars *)

(** [class ConfigurationError(Exception)] *)
Definition ConfigurationError (msg : string) : exn :=
  Exn "ConfigurationError" Exception_bases msg.

(** [s.startswith(prefix)] *)
Definition startswith (s prefix : string) : bool := String.prefix prefix s.

(** [s.endswith(suffix)] *)
Definition endswith (s suffix : string) : bool :=
  let n := String.length s in
  let m := String.length suffix in
  (m <=? n) && String.eqb (String.substring (n - m) m s) suffix.

(** [s[start:stop]]: a negative index counts from the end, and an index
    beyond the end is the end. *)
Definition slice (s : string) (start stop : Z) : string :=
  let len := py_len s in
  let norm (i : Z) :=
    if (i <? 0)%Z then Z.max 0 (len + i) else Z.min len i in
  String.substring (Z.to_nat (norm start))
    (Z.to_nat (norm stop - norm start)) s.

(** [sep in s] for a separator of one character *)
Fixpoint has_char (sep : ascii) (s : string) : bool :=
  match s with
  | EmptyString => false
  | String c s' => Ascii.eqb c sep || has_char sep s'
  end.

(** What precedes the first [sep] of [s] (all of [s] without a [sep]), and
    what follows it. *)
Fixpoint before (sep : ascii) (s : string) : string :=
  match s with
  | EmptyString => EmptyString
  | String c s' => if Ascii.eqb c sep then EmptyString
                   else String c (before sep s')
  end.

Fixpoint after (sep : ascii) (s : string) : option string :=
  match s with
  | EmptyString => None
  | String c s' => if Ascii.eqb c sep then Some s' else after sep s'
  end.

(** [s.split(sep, 1)] for a separator of one character *)
Definition split_once (sep : ascii) (s : string) : list string :=
  before sep s :: match after sep s with
                  | Some rest => [rest]
                  | None => []
                  end.

(** [os.getenv(name, default)], [getenv] being [os.getenv(name)]. *)
Definition getenv_default (getenv : string -> option string)
    (name dflt : string) : string :=
  match getenv name with
  | Some v => v
  | None => dflt
  end.

(** The string branch of [substitute_env_vars]. *)
Definition substitute_str (getenv : string -> option string) (config : string)
    : outcome string :=
  if startswith config "${" && endswith config "}" then
    let var_spec := slice config 2 (-1) in
    if has_char ":" var_spec then
      match split_once ":" var_spec with
      | [var_name; default_value] =>
          Returns (getenv_default getenv var_name default_value)
      | _ => Raises (ValueError "not enough values to unpack (expected 2, got 1)")
      end
    else
      let var_name := var_spec in
      match getenv var_name with
      | None =>
          Raises (ConfigurationError
                    ("Environment variable " +:+ var_name
                     +:+ " is required but not set"))
      | Some value => Returns value
      end
  else Returns config.

(** [substitute_env_vars]; the environment is the function [getenv].  A
    dictionary is the list of its items, in order; the comprehensions
    evaluate the items from left to right, so the first one that raises
    decides. *)
Fixpoint substitute_env_vars (getenv : string -> option string)
    (config : value) {struct config} : outcome value :=
  match config with
  | VDict entries =>
      VDict <$>
        (fix items (l : list (string * value))
             : outcome (list (string * value)) :=
           match l with
           | [] => Returns []
           | (k, v) :: l' =>
               v' ← substitute_env_vars getenv v;
               rest ← items l';
               Returns ((k, v') :: rest)
           end) entries
  | VList l =>
      VList <$>
        (fix items (l : list value) : outcome (list value) :=
           match l with
           | [] => Returns []
           | item :: l' =>
               item' ← substitute_env_vars getenv item;
               rest ← items l';
               Returns (item' :: rest)
           end) l
  | VStr s => VStr <$> substitute_str getenv s
  | _ => Returns config
  end.

(** A string of the form the function substitutes. *)
Definition is_placeholder (s : string) : bool :=
  startswith s "${" && endswith s "}".

(** The configurations without such a string. *)
Fixpoint no_placeholder (config : value) : bool :=
  match config with
  | VDict entries =>
      (fix items (l : list (string * value)) : bool :=
         match l with
         | [] => true
         | (_, v) :: l' => no_placeholder v && items l'
         end) entries
  | VList l =>
      (fix items (l : list value) : bool :=
         match l with
         | [] => true
         | item :: l' => no_placeholder item && items l'
         end) l
  | VStr s => negb (is_placeholder s)
  | _ => true
  end.

(** The variables a configuration requires: those of its placeholders
    without a default, in the order of the items. *)
Fixpoint required_variables (config : value) : list string :=
  match config with
  | VDict entries =>
      (fix items (l : list (string * value)) : list string :=
         match l with
         | [] => []
         | (_, v) :: l' => required_variables v ++ items l'
         end) entries
  | VList l =>
      (fix items (l : list value) : list string :=
         match l with
         | [] => []
         | item :: l' => required_variables item ++ items l'
         end) l
  | VStr s =>
      if is_placeholder s && negb (has_char ":" (slice s 2 (-1)))
      then [slice s 2 (-1)] else []
  | _ => []
  end.

(** An environment with one variable. *)
Definition example_getenv (name : string) : option string :=
  if String.eqb name "SONAR_TOKEN" then Some "s3cret" else None.

(** *** llm/base.py, llm/providers/openai.py, llm/factory.py *)

(** [class LLMError(Exception)] and
    [class LLMAuthenticationError(LLMError)] *)
Definition LLMError (msg : string) : exn :=
  Exn "LLMError" Exception_bases msg.
Definition LLMAuthenticationError (msg : string) : exn :=
  Exn "LLMAuthenticationError" ("LLMError" :: Exception_bases) msg.

(** [BaseLLMProvider._validate_config] *)
Definition _validate_config (config : dict) (required_keys : list string)
    : outcome unit :=
  let missing_keys :=
    List.filter (fun key => negb (contains config key)) required_keys in
  match missing_keys with
  | [] => Returns tt
  | _ :: _ =>
      Raises (ValueError
        ("Missing required configuration keys: " +:+ join ", " missing_keys))
  end.

(** An [OpenAIProvider]: the keyword arguments it was built from and the
    client of the library. *)
Record OpenAIProvider (Client : Type) : Type := {
  provider_config : dict;
  provider_client : Client
}.
Arguments provider_config {Client} _.
Arguments provider_client {Client} _.

(** [OpenAIProvider.__init__]; [ChatOpenAI] is the constructor of the
    library's client, called with [api_key], [model], [temperature] and
    [max_tokens]. *)
Definition OpenAIProvider_init {Client : Type}
    (ChatOpenAI : value -> value -> value -> value -> outcome Client)
    (kwargs : dict) : outcome (OpenAIProvider Client) :=
  _ ← _validate_config kwargs ["api_key"; "model"];
  match
    api_key ← subscript kwargs "api_key";
    model ← subscript kwargs "model";
    ChatOpenAI api_key model
      (get_default kwargs "temperature" (VFloat (Finite (2 # 10))))
      (get_default kwargs "max_tokens" (VInt 4000))
  with
  | Returns c => Returns {| provider_config := kwargs; provider_client := c |}
  | Raises e =>
      if isinstance e "Exception"
      then Raises (LLMAuthenticationError
                     ("OpenAI initialization failed: " +:+ exn_msg e))
      else Raises e
  end.

(** [d[k] = v] on a dictionary kept as the list of its items: the value of
    a key that is there is replaced in place, a new key goes last. *)
Fixpoint dict_set {V : Type} (d : list (string * V)) (k : string) (v : V)
    : list (string * V) :=
  match d with
  | [] => [(k, v)]
  | (k', v') :: d' =>
      if String.eqb k k' then (k', v) :: d' else (k', v') :: dict_set d' k v
  end.

(** [LLMFactory]: the class attribute [_providers] is passed explicitly; a
    provider class is what calling it with keyword arguments does. *)
Definition register_provider {P : Type}
    (_providers : list (string * (dict -> outcome P)))
    (name : string) (provider_class : dict -> outcome P)
    : list (string * (dict -> outcome P)) :=
  dict_set _providers name provider_class.

Definition list_providers {P : Type}
    (_providers : list (string * (dict -> outcome P))) : list string :=
  map fst _providers.

Definition create {P : Type}
    (_providers : list (string * (dict -> outcome P)))
    (provider_name : string) (kwargs : dict) : outcome P :=
  match assoc provider_name _providers with
  | None =>
      let available := join ", " (map fst _providers) in
      Raises (LLMError
        ("Unknown LLM provider '" +:+ provider_name
         +:+ "'. Available providers: " +:+ available))
  | Some provider_class =>
      match provider_class kwargs with
      | Returns provider => Returns provider
      | Raises e =>
          if isinstance e "Exception"
          then Raises (LLMError
                 ("Failed to create provider '" +:+ provider_name
                  +:+ "': " +:+ exn_msg e))
          else Raises e
      end
  end.

(** The registry as the module defines it. *)
Definition shipped_providers {Client : Type}
    (ChatOpenAI : value -> value -> value -> value -> outcome Client)
    : list (string * (dict -> outcome (OpenAIProvider Client))) :=
  [("openai", OpenAIProvider_init ChatOpenAI)].

(** A client constructor that rejects every key. *)
Definition rejecting_client (api_key model temperature max_tokens : value)
    : outcome unit :=
  Raises (ValueError "invalid api key").

(** *** nodes.py: the first statement of a node *)

(** Every node begins with [settings = get_settings()] (lines 25, 63, 107,
    136 and 171 of nodes.py).  The call returns the settings of the
    process, loading them when no call has done so before, or raises what
    [load_settings] raises: a [ConfigurationError] when the configuration
    file is missing or is not valid YAML, when a variable it requires is
    not set, or when the validation fails.  A [World] is a process in which
    the call returns, [settings w] being what it returns, and the
    definitions of the section [Nodes] are the nodes from their second
    statement on; a [Process] is such a world, or the process in which the
    call raises. *)
Inductive Process : Type :=
| Configured (w : World)
| Unconfigured (e : exn).

(** [get_settings()] *)
Definition get_settings (p : Process) : outcome Settings :=
  match p with
  | Configured w => Returns (settings w)
  | Unconfigured e => Raises e
  end.

(** A node from its first statement on: what [get_settings()] raises leaves
    the node, before the state is looked at. *)
Definition node_in (p : Process)
    (node : World -> WorkflowState -> outcome dict) (state : WorkflowState)
    : outcome dict :=
  match p with
  | Configured w => node w state
  | Unconfigured e => Raises e
  end.

(** The process without a configuration file. *)
Definition unconfigured_process : Process :=
  Unconfigured
    (ConfigurationError "Configuration file not found: config/default.yaml").

(** *** api/routes/workflow.py: the other routes *)

(** [HTTPException(status_code=404, detail=...)]; [exn_msg] holds the
    detail. *)
Definition HTTPException_404 (detail : string) : exn :=
  Exn "HTTPException" Exception_bases detail.



(** [cancel_workflow]: the registry it leaves and its answer, or the 404. *)
Definition cancel_workflow (workflows : gmap string dict) (workflow_id : string)
    : outcome (gmap string dict * dict) :=
  match workflows !! workflow_id with
  | None => Raises (HTTPException_404 "Workflow not found")
  | Some entry =>
      let entry := <[ "status" := WorkflowStatus_value WF_FAILED ]> entry in
      let entry := <[ "errors" := VList [VStr "Cancelled by user"] ]> entry in
      Returns (<[ workflow_id := entry ]> workflows,
               {[ "message" := VStr "Workflow cancelled" ]})
  end.


(** A registry with a pending run and a finished one. *)
Definition example_registry : gmap string dict :=
  <[ "run-1" := <[ "status" := VStr "pending" ]>
                (<[ "created_at" := VStr "2024-01-01T00:00:00" ]> ∅) ]>
  (<[ "run-2" := <[ "status" := VStr "success" ]>
                 (<[ "created_at" := VStr "2023-12-31T00:00:00" ]> ∅) ]> ∅).

(** * Properties *)

(** ** Strings *)

Lemma string_app_assoc (a b c : string) : (a +:+ b) +:+ c = a +:+ (b +:+ c).
Proof.
  induction a as [|x a IH]; [reflexivity|].
  change (String x ((a +:+ b) +:+ c) = String x (a +:+ b +:+ c)).
  now rewrite IH.
Qed.

Lemma string_app_empty_r (k : string) : k +:+ "" = k.
Proof.
  induction k as [|x k IH]; [reflexivity|].
  change (String x (k +:+ "") = String x k). now rewrite IH.
Qed.

Lemma mentions_refl (k : string) : mentions k k.
Proof.
  exists "", "". change (k = k +:+ ""). now rewrite string_app_empty_r.
Qed.

Lemma mentions_app_l (p msg k : string) : mentions msg k -> mentions (p +:+ msg) k.
Proof.
  intros (pre & post & ->). exists (p +:+ pre), post.
  now rewrite string_app_assoc.
Qed.

Lemma mentions_app_r (msg s k : string) : mentions msg k -> mentions (msg +:+ s) k.
Proof.
  intros (pre & post & ->). exists pre, (post +:+ s).
  now rewrite !string_app_assoc.
Qed.

Lemma join_mentions (sep : string) (l : list string) (k : string) :
  In k l -> mentions (join sep l) k.
Proof.
  unfold join. induction l as [|x l IH]; intros Hin; [destruct Hin|].
  destruct l as [|y l].
  - destruct Hin as [->|[]]. apply mentions_refl.
  - change (String.concat sep (x :: y :: l))
      with (x +:+ sep +:+ String.concat sep (y :: l)).
    destruct Hin as [->|Hin].
    + apply mentions_app_r, mentions_refl.
    + apply mentions_app_l, mentions_app_l, IH, Hin.
Qed.

(** ** base_agent.py *)

Lemma contains_false (context : dict) (k : string) :
  contains context k = false <-> context !! k = None.
Proof. unfold contains. destruct (context !! k); split; congruence. Qed.

Lemma contains_true (context : dict) (k : string) :
  contains context k = true <-> is_Some (context !! k).
Proof.
  unfold contains. destruct (context !! k) as [v|]; split; try congruence.
  - eauto.
  - intros [? ?]; congruence.
Qed.

(** C6. For every step, context and list of required keys: if some required
    key is absent from the context, [validate_context] raises a [ValueError]
    (the source's class for a missing input) whose message is the step's name
    followed by the comma-separated absent keys, so that it names every
    absent required key; if every required key is present, it returns
    without error. *)
Theorem validate_context_names_every_absent_key
    {A : Type} `{BaseAgent A} (self : A) (context : dict)
    (required_keys : list string) :
  ((exists k, In k required_keys /\ context !! k = None) ->
   exists msg,
     validate_context (name self) context required_keys
       = Raises (ValueError msg)
     /\ msg = name self +:+ " missing required context keys: "
                +:+ join ", " (List.filter (fun k => negb (contains context k))
                                 required_keys)
     /\ forall k, In k required_keys -> context !! k = None -> mentions msg k)
  /\ ((forall k, In k required_keys -> is_Some (context !! k)) ->
      validate_context (name self) context required_keys = Returns tt).
Proof.
  unfold validate_context.
  set (missing := List.filter (fun key => negb (contains context key)) required_keys).
  assert (Hmiss : forall k, In k missing <-> In k required_keys /\ context !! k = None).
  { intros k. unfold missing. rewrite filter_In, negb_true_iff, contains_false.
    reflexivity. }
  split.
  - intros (k0 & Hin0 & Habs0).
    destruct missing as [|m ms] eqn:E.
    + exfalso. apply (proj2 (Hmiss k0)); auto.
    + eexists. split; [reflexivity|]. split; [reflexivity|].
      intros k Hin Habs. apply mentions_app_l, mentions_app_l.
      apply join_mentions, Hmiss. auto.
  - intros Hall. destruct missing as [|m ms] eqn:E; [reflexivity|].
    exfalso. destruct (proj1 (Hmiss m)) as [Hin Habs]; [now left|].
    destruct (Hall m Hin) as [v Hv]. congruence.
Qed.

(** C6, at a concrete step and context: both required keys are absent and
    both are named. *)
Lemma validate_context_names_every_absent_key_witness :
  validate_context (name picky_step) clone_context ["repo_path"; "branch"]
    = Raises (ValueError "PickyStep missing required context keys: repo_path, branch")
  /\ validate_context (name picky_step) clone_context ["operation"; "repo_url"]
    = Returns tt.
Proof.
  pose proof (validate_context_names_every_absent_key picky_step clone_context
                ["repo_path"; "branch"]) as [Habsent _].
  pose proof (validate_context_names_every_absent_key picky_step clone_context
                ["operation"; "repo_url"]) as [_ Hpresent].
  split.
  - destruct Habsent as (msg & -> & -> & _).
    + exists "repo_path". split; [now left | reflexivity].
    + reflexivity.
  - apply Hpresent. intros k [<-|[<-|[]]]; eexists; reflexivity.
Defined.

Lemma run_returns {A : Type} `{BaseAgent A} (self self' : A) (context : dict)
    (r : AgentResult) :
  execute self context = (Returns r, self') ->
  run self context = (Returns r, self').
Proof. intros E. unfold run. now rewrite E. Qed.

Lemma run_raises {A : Type} `{BaseAgent A} (self self' : A) (context : dict)
    (e : exn) :
  execute self context = (Raises e, self') ->
  isinstance e "Exception" = true ->
  run self context
    = (Returns {| status := FAILED; data := ∅; error := Some (exn_msg e);
                  metadata := {[ "exception_type" := VStr (exn_type e) ]} |},
       self').
Proof. intros E Hexc. unfold run. now rewrite E, Hexc. Qed.

(** C2, as stated, fails twice: the error string of the result is the
    exception's message, which is empty for an exception raised without
    one; and an exception that does not derive from [Exception] leaves
    [run]. *)
Lemma run_empty_error_or_raises :
  (run silent_step ∅).1
    = Returns {| status := FAILED; data := ∅; error := Some "";
                 metadata := {[ "exception_type" := VStr "AgentError" ]} |}
  /\ (run interrupted_step ∅).1 = Raises KeyboardInterrupt.
Proof. split; reflexivity. Qed.

Lemma run_escapes {A : Type} `{BaseAgent A} (self self' : A) (context : dict)
    (e : exn) :
  execute self context = (Raises e, self') ->
  isinstance e "Exception" = false ->
  run self context = (Raises e, self').
Proof. intros E Hexc. unfold run. now rewrite E, Hexc. Qed.

(** C2, amended. For every step and context: a result that [execute]
    returns is returned by [run] as it is; when [execute] raises an
    exception [e] that derives from [Exception], [run] returns a result
    with status [FAILED], no data, the error string [str(e)] (empty exactly
    when the message of [e] is) and the class name of [e] under
    [exception_type] in its metadata; hence [run] returns a result and does
    not raise on every step and context on which [execute] raises only such
    exceptions.  An exception that does not derive from [Exception] is not
    caught: [run] raises it as [execute] did. *)
Theorem run_never_raises {A : Type} `{BaseAgent A} (self : A) (context : dict) :
  (forall r self', execute self context = (Returns r, self') ->
     run self context = (Returns r, self'))
  /\ (forall e self', execute self context = (Raises e, self') ->
      isinstance e "Exception" = true ->
      exists r, run self context = (Returns r, self')
        /\ status r = FAILED
        /\ data r = ∅
        /\ error r = Some (exn_msg e)
        /\ (error r = Some "" <-> exn_msg e = "")
        /\ metadata r !! "exception_type" = Some (VStr (exn_type e)))
  /\ ((forall e self', execute self context = (Raises e, self') ->
                       isinstance e "Exception" = true) ->
      exists r, (run self context).1 = Returns r)
  /\ (forall e self', execute self context = (Raises e, self') ->
      isinstance e "Exception" = false ->
      run self context = (Raises e, self')).
Proof.
  repeat apply conj.
  - intros r self' E. apply (run_returns _ _ _ _ E).
  - intros e self' E Hexc. eexists.
    rewrite (run_raises _ _ _ _ E Hexc). simpl.
    repeat split; try reflexivity; simpl; intros; congruence.
  - intros Hexc. destruct (execute self context) as [[r|e] self'] eqn:E.
    + exists r. now rewrite (run_returns _ _ _ _ E).
    + eexists. now rewrite (run_raises _ _ _ _ E (Hexc _ _ eq_refl)).
  - intros e self' E Hexc. apply (run_escapes _ _ _ _ E Hexc).
Qed.

(** C2, amended, on the step that fails validation, whose [ValueError]
    becomes the error of the result, and on the step that is interrupted,
    whose [KeyboardInterrupt] leaves [run]. *)
Lemma run_never_raises_witness :
  (exists r, (run picky_step clone_context).1 = Returns r
     /\ status r = FAILED
     /\ error r
        = Some "PickyStep missing required context keys: repo_path, branch"
     /\ metadata r !! "exception_type" = Some (VStr "ValueError"))
  /\ run interrupted_step ∅ = (Raises KeyboardInterrupt, interrupted_step).
Proof.
  destruct (run_never_raises picky_step clone_context) as (_ & Hraise & _ & _).
  destruct (run_never_raises interrupted_step ∅) as (_ & _ & _ & Hescape).
  split.
  - destruct (Hraise _ _ eq_refl eq_refl)
      as (r & Hr & Hst & _ & Herr & _ & Hmeta).
    exists r. rewrite Hr. repeat split; assumption.
  - apply Hescape; reflexivity.
Defined.

(** C8, as stated, fails on direct construction: [AgentResult(FAILED)] has
    no error, and [AgentResult(SUCCESS, error="boom")] has one. *)
Lemma error_iff_failed_not_enforced :
  ~ error_iff_failed (AgentResult_init FAILED None None None)
  /\ ~ error_iff_failed (AgentResult_init SUCCESS None (Some "boom") None).
Proof.
  unfold error_iff_failed. split; simpl.
  - intros [_ Hfail]. destruct (Hfail eq_refl) as [? ?]. discriminate.
  - intros [Herr _]. discriminate Herr. eauto.
Qed.

Ltac unfold_bind := unfold mbind, mret, outcome_bind, outcome_ret in *.

Ltac outcome_cases :=
  repeat match goal with
  | H : Returns _ = Returns _ |- _ => injection H as H; subst
  | H : Raises _ = Returns _ |- _ => discriminate H
  | H : (_, _) = (_, _) |- _ => injection H as ? ?; subst
  | H : context [match ?x with _ => _ end] |- _ => destruct x eqn:?
  | H : context [if ?x then _ else _] |- _ => destruct x eqn:?
  end.

Lemma SonarQubeAgent_execute_clean (self : SonarQubeAgent) (context : dict)
    (r : AgentResult) :
  SonarQubeAgent_execute self context = Returns r -> clean_result r.
Proof.
  unfold SonarQubeAgent_execute. unfold_bind. intros E.
  outcome_cases; split; simpl; congruence.
Qed.

Lemma GitAgent_execute_clean (self self' : GitAgent) (context : dict)
    (r : AgentResult) :
  GitAgent_execute self context = (Returns r, self') -> clean_result r.
Proof.
  unfold GitAgent_execute, GitAgent_clone_repository, GitAgent_create_branch,
    GitAgent_commit_changes, GitAgent_push_changes.
  unfold_bind. intros E.
  outcome_cases; split; simpl; congruence.
Qed.

Lemma AnalyzerAgent_execute_clean (self : AnalyzerAgent) (context : dict)
    (r : AgentResult) :
  AnalyzerAgent_execute self context = Returns r -> clean_result r.
Proof.
  unfold AnalyzerAgent_execute. unfold_bind. intros E.
  outcome_cases; split; simpl; congruence.
Qed.

Lemma TestGeneratorAgent_execute_clean (self : TestGeneratorAgent)
    (context : dict) (r : AgentResult) :
  TestGeneratorAgent_execute self context = Returns r -> clean_result r.
Proof.
  unfold TestGeneratorAgent_execute. unfold_bind. intros E.
  outcome_cases; split; simpl; congruence.
Qed.

Lemma PRAzureDevOpsAgent_execute_clean (self : PRAzureDevOpsAgent)
    (context : dict) (r : AgentResult) :
  PRAzureDevOpsAgent_execute self context = Returns r -> clean_result r.
Proof.
  unfold PRAzureDevOpsAgent_execute. unfold_bind. intros E.
  outcome_cases; split; simpl; congruence.
Qed.

Lemma clean_error_iff_failed (r : AgentResult) :
  clean_result r -> error_iff_failed r.
Proof.
  intros [Herr Hst]. unfold error_iff_failed. rewrite Herr. split.
  - intros [? ?]. discriminate.
  - intros ?. contradiction.
Qed.

Lemma run_error_iff_failed {A : Type} `{BaseAgent A} (self : A) (context : dict)
    (r : AgentResult) :
  (forall r0 self', execute self context = (Returns r0, self') ->
                    error_iff_failed r0) ->
  (run self context).1 = Returns r -> error_iff_failed r.
Proof.
  intros Hexec. unfold run.
  destruct (execute self context) as [[r0|e] self'] eqn:E.
  - simpl. intros [= <-]. eapply Hexec. reflexivity.
  - destruct (isinstance e "Exception"); simpl; [|discriminate].
    intros [= <-]. unfold error_iff_failed. simpl. split; eauto.
Qed.

(** C8, amended. The constructor stores the status and the error it is
    given, so a directly constructed result has its error present iff its
    status is [FAILED] exactly when its caller passed them so.  The [run]
    wrapper returns what [execute] returns, or a [FAILED] result carrying
    an error; hence a result of [run] has its error present iff it is
    [FAILED] whenever the results of [execute] do, which is the case of the
    five agents of the repository: their [execute] only builds successes
    and skips, without an error. *)
Theorem error_present_iff_failed :
  (forall st d err md,
     error_iff_failed (AgentResult_init st d err md)
     <-> (is_Some err <-> st = FAILED))
  /\ (forall (A : Type) `(BaseAgent A) (self : A) (context : dict) r,
        (forall r0 self', execute self context = (Returns r0, self') ->
                          error_iff_failed r0) ->
        (run self context).1 = Returns r -> error_iff_failed r)
  /\ (forall (self : SonarQubeAgent) context r,
        (run self context).1 = Returns r -> error_iff_failed r)
  /\ (forall (self : GitAgent) context r,
        (run self context).1 = Returns r -> error_iff_failed r)
  /\ (forall (self : AnalyzerAgent) context r,
        (run self context).1 = Returns r -> error_iff_failed r)
  /\ (forall (self : TestGeneratorAgent) context r,
        (run self context).1 = Returns r -> error_iff_failed r)
  /\ (forall (self : PRAzureDevOpsAgent) context r,
        (run self context).1 = Returns r -> error_iff_failed r).
Proof.
  repeat apply conj.
  - intros st d err md. unfold error_iff_failed. simpl. reflexivity.
  - intros A HA self context r. apply run_error_iff_failed.
  - intros self context r. apply run_error_iff_failed.
    intros r0 self' [= E _]. eapply clean_error_iff_failed,
      SonarQubeAgent_execute_clean, E.
  - intros self context r. apply run_error_iff_failed.
    intros r0 self' E. eapply clean_error_iff_failed,
      GitAgent_execute_clean, E.
  - intros self context r. apply run_error_iff_failed.
    intros r0 self' [= E _]. eapply clean_error_iff_failed,
      AnalyzerAgent_execute_clean, E.
  - intros self context r. apply run_error_iff_failed.
    intros r0 self' [= E _]. eapply clean_error_iff_failed,
      TestGeneratorAgent_execute_clean, E.
  - intros self context r. apply run_error_iff_failed.
    intros r0 self' [= E _]. eapply clean_error_iff_failed,
      PRAzureDevOpsAgent_execute_clean, E.
Qed.

(** ** The merge of a partial update *)

Lemma merge_lookup (s p : WorkflowState) (k : string) :
  merge s p !! k = match p !! k with Some v => Some v | None => s !! k end.
Proof.
  unfold merge. destruct (p !! k) as [v|] eqn:E.
  - now apply lookup_union_Some_l.
  - now apply lookup_union_r.
Qed.

Lemma merge_idempotent (s p : WorkflowState) : merge (merge s p) p = merge s p.
Proof.
  apply map_eq. intros k. rewrite !merge_lookup. now destruct (p !! k).
Qed.

(** C4. For every state [s], partial update [p] and key [k]: the merged
    state has the value of [p] at [k] when [p] has the key and the value of
    [s] otherwise, so no key of [s] disappears; merging the same update a
    second time changes nothing; and a list under a key of both, such as
    [errors], is the list of the update, not a concatenation. *)
Theorem merge_overwrites_per_key (s p : WorkflowState) (k : string) :
  (p !! k = None -> merge s p !! k = s !! k)
  /\ (forall v, p !! k = Some v -> merge s p !! k = Some v)
  /\ (is_Some (s !! k) -> is_Some (merge s p !! k))
  /\ merge (merge s p) p = merge s p
  /\ (forall old new : list value,
        merge (<[ "errors" := VList old ]> s) (<[ "errors" := VList new ]> p)
          !! "errors" = Some (VList new)).
Proof.
  repeat apply conj.
  - intros E. now rewrite merge_lookup, E.
  - intros v E. now rewrite merge_lookup, E.
  - intros [v E]. rewrite merge_lookup. destruct (p !! k); eauto.
  - apply merge_idempotent.
  - intros old new. rewrite merge_lookup. now rewrite lookup_insert_eq.
Qed.

(** C4 on a state holding one error and an update holding another. *)
Lemma merge_overwrites_per_key_witness :
  merge (<[ "errors" := VList [VStr "clone failed"] ]> clone_context)
        {[ "errors" := VList [VStr "coverage failed"] ]} !! "errors"
    = Some (VList [VStr "coverage failed"])
  /\ merge (<[ "errors" := VList [VStr "clone failed"] ]> clone_context)
           {[ "errors" := VList [VStr "coverage failed"] ]} !! "repo_url"
    = Some (VStr "https://h/r.git").
Proof.
  split.
  - apply (proj1 (proj2 (merge_overwrites_per_key _ _ "errors"))).
    apply lookup_singleton_eq.
  - rewrite (proj1 (merge_overwrites_per_key _ _ "repo_url")).
    + reflexivity.
    + reflexivity.
Defined.

(** ** The router *)

Lemma float_lt_finite (p q : Q) : float_lt (Finite p) (Finite q) = true <-> (p < q)%Q.
Proof.
  simpl. rewrite Qlt_alt. destruct (p ?= q)%Q; split; congruence.
Qed.

Lemma should_generate_tests_numbers (state : WorkflowState) (c t : pyfloat) :
  as_number (get_default state "coverage_before" (VInt 0)) = Some c ->
  as_number (get_default state "coverage_threshold" (VInt 90)) = Some t ->
  should_generate_tests state
    = Returns (if float_lt c t then "analyze_code" else "end").
Proof.
  intros Hc Ht. unfold should_generate_tests, py_lt. rewrite Hc, Ht.
  unfold_bind. now destruct (float_lt c t).
Qed.

Lemma float_lt_int (a b : Z) :
  float_lt (Finite (inject_Z a)) (Finite (inject_Z b)) = (a <? b)%Z.
Proof.
  unfold float_lt, Qcompare, inject_Z, Z.ltb. cbn [Qnum Qden].
  now rewrite !Z.mul_1_r.
Qed.

(** C9. In a state without [coverage_before] the router compares 0 with the
    threshold: it returns [analyze_code] when the threshold (a number, or
    90 when the key is absent) is above 0 and [end] otherwise.  In a state
    without [coverage_threshold] it compares the coverage with 90.  So the
    router decides as on the state completed with the defaults, and a state
    without [coverage_before] whose threshold is absent, or a positive
    number, is routed to [analyze_code]. *)
Theorem router_defaults (state : WorkflowState) :
  (state !! "coverage_before" = None ->
   forall t,
     as_number (get_default state "coverage_threshold" (VInt 90)) = Some t ->
     should_generate_tests state
     = Returns (if float_lt (Finite 0) t then "analyze_code" else "end"))
  /\ (state !! "coverage_threshold" = None ->
      forall c,
        as_number (get_default state "coverage_before" (VInt 0)) = Some c ->
        should_generate_tests state
        = Returns (if float_lt c (Finite 90) then "analyze_code" else "end"))
  /\ (state !! "coverage_before" = None ->
      forall t : Z, state !! "coverage_threshold" = Some (VInt t) ->
      should_generate_tests state
      = Returns (if (0 <? t)%Z then "analyze_code" else "end"))
  /\ (state !! "coverage_threshold" = None ->
      forall c : Z, state !! "coverage_before" = Some (VInt c) ->
      should_generate_tests state
      = Returns (if (c <? 90)%Z then "analyze_code" else "end"))
  /\ (state !! "coverage_before" = None ->
      should_generate_tests state
        = should_generate_tests (<[ "coverage_before" := VInt 0 ]> state))
  /\ (state !! "coverage_threshold" = None ->
      should_generate_tests state
        = should_generate_tests (<[ "coverage_threshold" := VInt 90 ]> state))
  /\ (state !! "coverage_before" = None ->
      (state !! "coverage_threshold" = None
       \/ (exists t : Z, state !! "coverage_threshold" = Some (VInt t) /\ (0 < t)%Z)
       \/ (exists q : Q, state !! "coverage_threshold" = Some (VFloat (Finite q))
                         /\ (0 < q)%Q)) ->
      should_generate_tests state = Returns "analyze_code").
Proof.
  repeat apply conj.
  - intros Ec t Ht.
    apply (should_generate_tests_numbers state (Finite (inject_Z 0)) t);
      [unfold get_default; now rewrite Ec | exact Ht].
  - intros Et c Hc.
    apply (should_generate_tests_numbers state c (Finite (inject_Z 90)));
      [exact Hc | unfold get_default; now rewrite Et].
  - intros Ec t Et. rewrite <- float_lt_int.
    apply (should_generate_tests_numbers state (Finite (inject_Z 0))
             (Finite (inject_Z t))); unfold get_default.
    + now rewrite Ec.
    + now rewrite Et.
  - intros Et c Ec. rewrite <- float_lt_int.
    apply (should_generate_tests_numbers state (Finite (inject_Z c))
             (Finite (inject_Z 90))); unfold get_default.
    + now rewrite Ec.
    + now rewrite Et.
  - intros E. unfold should_generate_tests, get_default.
    rewrite E, lookup_insert_eq, lookup_insert_ne by discriminate. reflexivity.
  - intros E. unfold should_generate_tests, get_default.
    rewrite E, lookup_insert_eq, lookup_insert_ne by discriminate. reflexivity.
  - intros Ec Ht.
    assert (Hq : exists q : Q,
               as_number (get_default state "coverage_threshold" (VInt 90))
                 = Some (Finite q) /\ (0 < q)%Q).
    { unfold get_default. destruct Ht as [E|[(t & E & Hpos)|(q & E & Hpos)]];
        rewrite E; simpl.
      - exists (inject_Z 90). split; [reflexivity|]. reflexivity.
      - exists (inject_Z t). split; [reflexivity|].
        change 0%Q with (inject_Z 0). now rewrite <- Zlt_Qlt.
      - exists q. split; [reflexivity|assumption]. }
    destruct Hq as (q & Hq & Hpos).
    rewrite (should_generate_tests_numbers state (Finite (inject_Z 0)) (Finite q));
      [| unfold get_default; now rewrite Ec | exact Hq].
    apply float_lt_finite in Hpos. change (inject_Z 0) with 0%Q. now rewrite Hpos.
Qed.

(** C9 on the state a run starts from, which has a threshold of 90 and no
    coverage yet, on the empty state, and on states without coverage whose
    threshold is 0 or negative, which the router ends. *)
Lemma router_defaults_witness :
  should_generate_tests (example_state failing_world) = Returns "analyze_code"
  /\ should_generate_tests ∅ = Returns "analyze_code"
  /\ should_generate_tests {[ "coverage_threshold" := VInt 0 ]} = Returns "end"
  /\ should_generate_tests {[ "coverage_threshold" := VInt (-1) ]} = Returns "end"
  /\ should_generate_tests {[ "coverage_before" := VInt 95 ]} = Returns "end"
  /\ should_generate_tests {[ "coverage_before" := VInt 89 ]}
     = Returns "analyze_code".
Proof.
  repeat apply conj.
  - apply (router_defaults (example_state failing_world)).
    + reflexivity.
    + right. left. exists 90%Z. split; [reflexivity | lia].
  - apply (router_defaults ∅).
    + reflexivity.
    + left. reflexivity.
  - destruct (router_defaults {[ "coverage_threshold" := VInt 0 ]})
      as (_ & _ & H & _).
    apply (H eq_refl 0%Z eq_refl).
  - destruct (router_defaults {[ "coverage_threshold" := VInt (-1) ]})
      as (_ & _ & H & _).
    apply (H eq_refl (-1)%Z eq_refl).
  - destruct (router_defaults {[ "coverage_before" := VInt 95 ]})
      as (_ & _ & _ & H & _).
    apply (H eq_refl 95%Z eq_refl).
  - destruct (router_defaults {[ "coverage_before" := VInt 89 ]})
      as (_ & _ & _ & H & _).
    apply (H eq_refl 89%Z eq_refl).
Defined.

(** ** helpers.py: retry *)





Section RetryFacts.

Context {T : Type}.
Variable time_sleep : Q -> outcome unit.
Variable max_attempts : Z.
Variable exponential_backoff : bool.
Variable exceptions : list string.
Variable func : nat -> outcome T.
Variable errors : nat -> exn.
Hypothesis func_fails : forall i, func i = Raises (errors i).
Hypothesis errors_caught : forall i, caught_by exceptions (errors i) = true.



End RetryFacts.




(** An error outside the retried classes leaves at once. *)
Example retry_not_retryable :
  retry cpython_sleep 3 1 true ["ConnectionError"] always_failing
  = (Raises (flaky_errors 0), {| invocations := 1; slept := [] |}).
Proof. reflexivity. Qed.

(** ** The compiled workflow, node by node *)

Section Steps.

Context (w : World).

Lemma step_clone_repository (fuel : nat) (s : WorkflowState) (tr : list string) :
  run_from (S fuel) (compiled_workflow w) (Node "clone_repository") s tr
  = match clone_repository_node w s with
    | Raises e => (tr ++ ["clone_repository"], Raises e)
    | Returns p =>
        run_from fuel (compiled_workflow w) (Node "check_coverage")
          (merge s p) (tr ++ ["clone_repository"])
    end.
Proof. simpl. now destruct (clone_repository_node w s). Qed.

Lemma step_check_coverage (fuel : nat) (s : WorkflowState) (tr : list string) :
  run_from (S fuel) (compiled_workflow w) (Node "check_coverage") s tr
  = match check_coverage_node w s with
    | Raises e => (tr ++ ["check_coverage"], Raises e)
    | Returns p =>
        match should_generate_tests (merge s p) with
        | Raises e => (tr ++ ["check_coverage"], Raises e)
        | Returns label =>
            if String.eqb label "analyze_code"
            then run_from fuel (compiled_workflow w) (Node "analyze_code")
                   (merge s p) (tr ++ ["check_coverage"])
            else if String.eqb label "end"
            then (tr ++ ["check_coverage"], Returns (merge s p))
            else (tr ++ ["check_coverage"],
                  Raises (graph_error "RoutingError" label))
        end
    end.
Proof.
  simpl. destruct (check_coverage_node w s) as [p|e]; [|reflexivity].
  destruct (should_generate_tests (merge s p)) as [label|e]; [|reflexivity].
  destruct (String.eqb label "analyze_code"); [reflexivity|].
  destruct (String.eqb label "end"); [|reflexivity].
  now destruct fuel.
Qed.

Lemma step_analyze_code (fuel : nat) (s : WorkflowState) (tr : list string) :
  run_from (S fuel) (compiled_workflow w) (Node "analyze_code") s tr
  = match analyze_code_node w s with
    | Raises e => (tr ++ ["analyze_code"], Raises e)
    | Returns p =>
        run_from fuel (compiled_workflow w) (Node "generate_tests")
          (merge s p) (tr ++ ["analyze_code"])
    end.
Proof. simpl. now destruct (analyze_code_node w s). Qed.

Lemma step_generate_tests (fuel : nat) (s : WorkflowState) (tr : list string) :
  run_from (S fuel) (compiled_workflow w) (Node "generate_tests") s tr
  = match generate_tests_node w s with
    | Raises e => (tr ++ ["generate_tests"], Raises e)
    | Returns p =>
        run_from fuel (compiled_workflow w) (Node "create_pr")
          (merge s p) (tr ++ ["generate_tests"])
    end.
Proof. simpl. now destruct (generate_tests_node w s). Qed.

Lemma step_create_pr (fuel : nat) (s : WorkflowState) (tr : list string) :
  run_from (S fuel) (compiled_workflow w) (Node "create_pr") s tr
  = match create_pr_node w s with
    | Raises e => (tr ++ ["create_pr"], Raises e)
    | Returns p => (tr ++ ["create_pr"], Returns (merge s p))
    end.
Proof.
  simpl. destruct (create_pr_node w s); [|reflexivity]. now destruct fuel.
Qed.

End Steps.

Lemma invoke_compiled_workflow (w : World) (fuel : nat) (s : WorkflowState) :
  invoke fuel (compiled_workflow w) s
  = run_from fuel (compiled_workflow w) (Node "clone_repository") s [].
Proof. reflexivity. Qed.

(** Five steps are enough for any run of the compiled workflow: more fuel
    changes nothing. *)
Lemma invoke_enough_fuel (w : World) (k : nat) (s : WorkflowState) :
  invoke (5 + k) (compiled_workflow w) s = invoke 5 (compiled_workflow w) s.
Proof.
  rewrite !invoke_compiled_workflow.
  change (5 + k) with (S (S (S (S (S k))))).
  rewrite !step_clone_repository.
  destruct (clone_repository_node w s) as [p1|]; [|reflexivity].
  rewrite !step_check_coverage.
  destruct (check_coverage_node w (merge s p1)) as [p2|]; [|reflexivity].
  destruct (should_generate_tests (merge (merge s p1) p2)) as [label|];
    [|reflexivity].
  destruct (String.eqb label "analyze_code"); [|reflexivity].
  rewrite !step_analyze_code.
  destruct (analyze_code_node w _) as [p3|]; [|reflexivity].
  rewrite !step_generate_tests.
  destruct (generate_tests_node w _) as [p4|]; [|reflexivity].
  rewrite !step_create_pr. reflexivity.
Qed.

(** C1. The router returns [analyze_code] when the coverage is below the
    threshold (by Python's [<] on numbers) and [end] otherwise; for finite
    figures [c] and [t], [analyze_code] exactly when [c < t] and [end]
    exactly when not.  The conditional edge sends [analyze_code] to the
    analysis node and [end] to the terminal marker.  Hence a run whose
    coverage check leaves a coverage not below the threshold (95 against 90)
    executes the clone and the coverage check and nothing else, and a run
    whose coverage check leaves a coverage below it (60 against 90)
    executes, after these two, the analysis, the generation and the review
    node in this order, each returning its update. *)
Theorem router_continues_iff_below_threshold (w : World) :
  (forall state c t,
     as_number (get_default state "coverage_before" (VInt 0)) = Some c ->
     as_number (get_default state "coverage_threshold" (VInt 90)) = Some t ->
     should_generate_tests state
       = Returns (if float_lt c t then "analyze_code" else "end"))
  /\ (forall state (c t : Q),
        as_number (get_default state "coverage_before" (VInt 0))
          = Some (Finite c) ->
        as_number (get_default state "coverage_threshold" (VInt 90))
          = Some (Finite t) ->
        (should_generate_tests state = Returns "analyze_code" <-> (c < t)%Q)
        /\ (should_generate_tests state = Returns "end" <-> ~ (c < t)%Q))
  /\ assoc "check_coverage" (conditional_edges (compiled_workflow w))
       = Some (should_generate_tests,
               [("analyze_code", Node "analyze_code"); ("end", END)])
  /\ (forall fuel s0 p1 p2 (c t : Q),
        clone_repository_node w s0 = Returns p1 ->
        check_coverage_node w (merge s0 p1) = Returns p2 ->
        as_number (get (merge (merge s0 p1) p2) "coverage_before")
          = Some (Finite c) ->
        as_number (get (merge (merge s0 p1) p2) "coverage_threshold")
          = Some (Finite t) ->
        ~ (c < t)%Q ->
        invoke (2 + fuel) (compiled_workflow w) s0
          = (["clone_repository"; "check_coverage"],
             Returns (merge (merge s0 p1) p2)))
  /\ (forall fuel s0 p1 p2 p3 p4 p5 (c t : Q),
        clone_repository_node w s0 = Returns p1 ->
        check_coverage_node w (merge s0 p1) = Returns p2 ->
        as_number (get (merge (merge s0 p1) p2) "coverage_before")
          = Some (Finite c) ->
        as_number (get (merge (merge s0 p1) p2) "coverage_threshold")
          = Some (Finite t) ->
        (c < t)%Q ->
        analyze_code_node w (merge (merge s0 p1) p2) = Returns p3 ->
        generate_tests_node w (merge (merge (merge s0 p1) p2) p3)
          = Returns p4 ->
        create_pr_node w (merge (merge (merge (merge s0 p1) p2) p3) p4)
          = Returns p5 ->
        invoke (5 + fuel) (compiled_workflow w) s0
          = (["clone_repository"; "check_coverage"; "analyze_code";
              "generate_tests"; "create_pr"],
             Returns (merge (merge (merge (merge (merge s0 p1) p2) p3) p4)
                        p5))).
Proof.
  assert (Hdflt : forall (state : WorkflowState) k d x,
            as_number (get state k) = Some x ->
            as_number (get_default state k d) = Some x).
  { intros state k d x. unfold get, get_default.
    destruct (state !! k); [auto|discriminate]. }
  repeat apply conj.
  - apply should_generate_tests_numbers.
  - intros state c t Hc Ht.
    rewrite (should_generate_tests_numbers _ _ _ Hc Ht).
    pose proof (float_lt_finite c t) as Hlt.
    destruct (float_lt (Finite c) (Finite t)); split; split;
      try discriminate; try reflexivity; intros; try tauto.
    + exfalso. destruct Hlt as [_ Hlt]. specialize (Hlt H). discriminate.
    + intros Hc'. destruct Hlt as [_ Hlt]. specialize (Hlt Hc'). discriminate.
  - reflexivity.
  - intros fuel s0 p1 p2 c t E1 E2 Hc Ht Hge.
    rewrite invoke_compiled_workflow. change (2 + fuel) with (S (S fuel)).
    rewrite step_clone_repository, E1, step_check_coverage, E2.
    rewrite (should_generate_tests_numbers _ _ _
               (Hdflt _ _ _ _ Hc) (Hdflt _ _ _ _ Ht)).
    pose proof (float_lt_finite c t) as Hlt.
    destruct (float_lt (Finite c) (Finite t)); [|reflexivity].
    exfalso. apply Hge, Hlt. reflexivity.
  - intros fuel s0 p1 p2 p3 p4 p5 c t E1 E2 Hc Ht Hlt E3 E4 E5.
    rewrite invoke_compiled_workflow.
    change (5 + fuel) with (S (S (S (S (S fuel))))).
    rewrite step_clone_repository, E1, step_check_coverage, E2.
    rewrite (should_generate_tests_numbers _ _ _
               (Hdflt _ _ _ _ Hc) (Hdflt _ _ _ _ Ht)).
    apply float_lt_finite in Hlt. rewrite Hlt.
    change (String.eqb "analyze_code" "analyze_code") with true. cbv iota.
    rewrite step_analyze_code, E3, step_generate_tests, E4, step_create_pr, E5.
    reflexivity.
Qed.

(** C1 on two runs that differ by the coverage SonarQube reports: with 95
    against a threshold of 90 the run stops after the coverage check; with
    60 the analysis, the generation and the review follow. *)
Lemma router_continues_iff_below_threshold_witness :
  (invoke 5 (compiled_workflow (healthy_world 95))
     (example_state (healthy_world 95))).1
    = ["clone_repository"; "check_coverage"]
  /\ (invoke 5 (compiled_workflow (healthy_world 60))
        (example_state (healthy_world 60))).1
    = ["clone_repository"; "check_coverage"; "analyze_code";
       "generate_tests"; "create_pr"].
Proof.
  destruct (router_continues_iff_below_threshold (healthy_world 95))
    as (_ & _ & _ & Hstop & _).
  destruct (router_continues_iff_below_threshold (healthy_world 60))
    as (_ & _ & _ & _ & Hgo).
  split.
  - erewrite (Hstop 3 _ _ _ 95%Q (inject_Z 90)).
    + reflexivity.
    + reflexivity.
    + reflexivity.
    + reflexivity.
    + reflexivity.
    + intros Hlt. discriminate Hlt.
  - erewrite (Hgo 0 _ _ _ _ _ _ 60%Q (inject_Z 90)).
    + reflexivity.
    + reflexivity.
    + reflexivity.
    + reflexivity.
    + reflexivity.
    + reflexivity.
    + reflexivity.
    + reflexivity.
    + reflexivity.
Defined.

(** ** A failed clone *)


Lemma validate_project_key (key : value) :
  validate_context "SonarQubeAgent" {[ "project_key" := key ]} ["project_key"]
  = Returns tt.
Proof.
  unfold validate_context, contains. simpl.
  now rewrite lookup_singleton_eq.
Qed.







(** ** Nodes on states that miss a key *)

(** C7 fails on the code.  Each node subscripts the state outside the [run]
    wrapper of its agent, so a state without the key makes the node raise
    [KeyError] instead of returning an update: [analyze_code_node] without
    [repo_path], [generate_tests_node] (once the language model is built)
    without [test_candidates], [clone_repository_node] without [repo_url]
    and [check_coverage_node] without [sonar_project_key].  The analyzer
    itself, given a context without [repo_path], reports the missing key in
    a failed result; the node never lets it.  After a failed clone and a
    failed coverage check the run is aborted by the [KeyError] of the
    analysis node, and the runner records this error in place of the two
    failures. *)
Theorem nodes_raise_on_missing_keys (w : World) (state : WorkflowState) :
  analyze_code_node w (delete "repo_path" state)
    = Raises (KeyError "repo_path")
  /\ generate_tests_node w (delete "test_candidates" state)
     = match create_llm w with
       | Returns _ => Raises (KeyError "test_candidates")
       | Raises e => Raises e
       end
  /\ clone_repository_node w (delete "repo_url" state)
     = Raises (KeyError "repo_url")
  /\ check_coverage_node w (delete "sonar_project_key" state)
     = Raises (KeyError "sonar_project_key")
  /\ (run {| analyzer_body := analyze w |}
         {[ "uncovered_files" := VList [] ]}).1
     = Returns {| status := FAILED; data := ∅;
                  error := Some "AnalyzerAgent missing required context keys: repo_path";
                  metadata := {[ "exception_type" := VStr "ValueError" ]} |}
  /\ invoke 5 (compiled_workflow failing_world) (example_state failing_world)
     = (["clone_repository"; "check_coverage"; "analyze_code"],
        Raises (KeyError "repo_path"))
  /\ (fun workflows : gmap string dict =>
        entry ← workflows !! "run-1";
        Some (entry !! "status", entry !! "errors"))
       <$> run_workflow_background failing_world 5
             {[ "run-1" := {[ "status" := VStr "pending" ]} ]} "run-1"
             example_request
     = Returns (Some (Some (VStr "failed"),
                      Some (VList [VStr "'repo_path'"]))).
Proof.
  repeat apply conj.
  - unfold analyze_code_node, subscript. now rewrite lookup_delete_eq.
  - unfold generate_tests_node, subscript. unfold_bind.
    destruct (create_llm w); [|reflexivity]. now rewrite lookup_delete_eq.
  - unfold clone_repository_node, subscript. now rewrite lookup_delete_eq.
  - unfold check_coverage_node, subscript. now rewrite lookup_delete_eq.
  - reflexivity.
  - vm_compute. reflexivity.
  - vm_compute. reflexivity.
Qed.

(** ** The status the runner records *)

Lemma ne_str_true (v : value) (s : string) : ne_str v s = true <-> v <> VStr s.
Proof.
  destruct v; simpl; try (split; [discriminate | reflexivity]).
  rewrite negb_true_iff. destruct (String.eqb_spec s0 s) as [->|Hne]; split;
    congruence.
Qed.

Lemma ne_str_false (v : value) (s : string) : ne_str v s = false <-> v = VStr s.
Proof.
  destruct v; simpl; try (split; discriminate).
  rewrite negb_false_iff. destruct (String.eqb_spec s0 s) as [->|Hne]; split;
    congruence.
Qed.

Lemma recorded_status_success (result : WorkflowState) :
  recorded_status result = WF_SUCCESS <-> get result "status" <> VStr "failed".
Proof.
  unfold recorded_status. rewrite <- ne_str_true.
  destruct (ne_str (get result "status") "failed"); split; congruence.
Qed.

(** The create_pr node of the sources starts from a fresh [GitAgent], whose
    repository is not initialised: its first step fails, and the node
    returns the update of that failure. *)
Lemma create_pr_node_fails (w : World) (state : WorkflowState) :
  create_pr_node w state
  = Returns (<[ "errors" := VList
                  [VStr "Repository not initialized. Run clone operation first."] ]>
            (<[ "status" := VStr "failed" ]>
            (<[ "current_step" := VStr "create_pr" ]> ∅))).
Proof. reflexivity. Qed.

(** C10. The runner records [SUCCESS] exactly when the [status] of the
    final state is not the string "failed", and [FAILED] otherwise, and
    writes it under [status] in the entry of the run.  In particular a run
    that stops after the coverage check, started without a [status] and in
    which neither node wrote one, is recorded as [SUCCESS]; and whatever
    [status] a state holds, "failed" included, once an update whose
    [status] is "success" is merged into it, it is recorded as [SUCCESS]. *)
Theorem recorded_success_iff_status_not_failed (w : World) :
  (forall result,
     (recorded_status result = WF_SUCCESS
      <-> get result "status" <> VStr "failed")
     /\ (recorded_status result = WF_FAILED
         <-> get result "status" = VStr "failed"))
  /\ (forall fuel (workflows : gmap string dict) workflow_id request entry result,
        workflows !! workflow_id = Some entry ->
        (invoke fuel (compiled_workflow w)
           (initial_state w workflow_id request)).2 = Returns result ->
        exists workflows' entry',
          run_workflow_background w fuel workflows workflow_id request
            = Returns workflows'
          /\ workflows' !! workflow_id = Some entry'
          /\ entry' !! "status"
             = Some (WorkflowStatus_value (recorded_status result)))
  /\ (forall fuel s0 p1 p2,
        s0 !! "status" = None ->
        clone_repository_node w s0 = Returns p1 ->
        p1 !! "status" = None ->
        check_coverage_node w (merge s0 p1) = Returns p2 ->
        p2 !! "status" = None ->
        should_generate_tests (merge (merge s0 p1) p2) = Returns "end" ->
        invoke (2 + fuel) (compiled_workflow w) s0
          = (["clone_repository"; "check_coverage"],
             Returns (merge (merge s0 p1) p2))
        /\ recorded_status (merge (merge s0 p1) p2) = WF_SUCCESS)
  /\ (forall (s p : WorkflowState),
        p !! "status" = Some (VStr "success") ->
        recorded_status (merge s p) = WF_SUCCESS).
Proof.
  split; [|split; [|split]].
  - intros result. split; [apply recorded_status_success|].
    rewrite <- ne_str_false. unfold recorded_status.
    destruct (ne_str (get result "status") "failed"); split; congruence.
  - intros fuel workflows workflow_id request entry result Hentry Hrun.
    unfold run_workflow_background. rewrite Hentry, Hrun.
    eexists. eexists. split; [reflexivity|].
    split; [apply lookup_insert_eq|].
    unfold update, completed_entry.
    apply lookup_union_Some_l, lookup_insert_eq.
  - intros fuel s0 p1 p2 Hs0 E1 Hp1 E2 Hp2 Hend. split.
    + rewrite invoke_compiled_workflow. change (2 + fuel) with (S (S fuel)).
      rewrite step_clone_repository, E1, step_check_coverage, E2, Hend.
      reflexivity.
    + apply recorded_status_success. unfold get, get_default.
      now rewrite !merge_lookup, Hp2, Hp1, Hs0.
  - intros s p Hp. apply recorded_status_success. unfold get, get_default.
    rewrite merge_lookup, Hp. discriminate.
Qed.

(** C10 on the run that finds a coverage of 95 against a threshold of 90,
    and on a state marked "failed" into which a "success" is merged. *)
Lemma recorded_success_iff_status_not_failed_witness :
  (exists workflows' entry',
     run_workflow_background (healthy_world 95) 5
       {[ "run-1" := {[ "status" := VStr "pending" ]} ]} "run-1" example_request
       = Returns workflows'
     /\ workflows' !! "run-1" = Some entry'
     /\ entry' !! "status" = Some (VStr "success"))
  /\ recorded_status
       (merge {[ "status" := VStr "failed" ]} {[ "status" := VStr "success" ]})
     = WF_SUCCESS.
Proof.
  destruct (recorded_success_iff_status_not_failed (healthy_world 95))
    as (_ & Hrun & _ & Hover).
  split.
  - set (result := match (invoke 5 (compiled_workflow (healthy_world 95))
                            (initial_state (healthy_world 95) "run-1"
                               example_request)).2 with
                   | Returns r => r
                   | Raises _ => ∅
                   end).
    assert (Hres : (invoke 5 (compiled_workflow (healthy_world 95))
                      (initial_state (healthy_world 95) "run-1"
                         example_request)).2 = Returns result)
      by (vm_compute; reflexivity).
    assert (Hst : WorkflowStatus_value (recorded_status result) = VStr "success")
      by (vm_compute; reflexivity).
    destruct (Hrun 5 {[ "run-1" := {[ "status" := VStr "pending" ]} ]}
                "run-1" example_request {[ "status" := VStr "pending" ]}
                result (lookup_singleton_eq _ _) Hres)
      as (workflows' & entry' & E & Hentry & Hstatus).
    exists workflows', entry'. rewrite Hst in Hstatus. auto.
  - apply Hover. apply lookup_singleton_eq.
Defined.

(** * Further properties *)

(** ** What the nodes return *)

Lemma clone_repository_node_returns (w : World) (s p : WorkflowState) :
  clone_repository_node w s = Returns p ->
  (exists repo_path repo_name,
     p = <[ "repo_path" := repo_path ]>
         (<[ "current_step" := VStr "clone" ]>
         (<[ "repository_id" := VStr repo_name ]> ∅)))
  \/ (exists r, p = failed_update r "clone" /\ is_success r = false).
Proof.
  unfold clone_repository_node. unfold_bind.
  destruct (subscript s "repo_url") as [url|e]; [|discriminate].
  destruct url; try discriminate.
  destruct (run _ _).1 as [r|e]; [|discriminate].
  destruct (is_success r) eqn:Hs.
  - destruct (subscript (data r) "repo_path") as [c|]; [|discriminate].
    intros [= <-]. left. eauto.
  - intros [= <-]. right. eauto.
Qed.

Lemma check_coverage_node_shape (w : World) (s p : WorkflowState) :
  check_coverage_node w s = Returns p ->
  (exists coverage metrics uncovered,
     p = <[ "coverage_before" := coverage ]>
         (<[ "coverage_metrics" := metrics ]>
         (<[ "uncovered_files" := uncovered ]>
         (<[ "current_step" := VStr "check_coverage" ]> ∅))))
  \/ (exists r, p = failed_update r "check_coverage" /\ is_success r = false).
Proof.
  unfold check_coverage_node. unfold_bind.
  destruct (subscript s "sonar_project_key") as [key|e]; [|discriminate].
  destruct (run _ _).1 as [r|e]; [|discriminate].
  destruct (is_success r) eqn:Hs.
  - destruct (subscript (data r) "coverage") as [c|]; [|discriminate].
    destruct (subscript (data r) "metrics") as [m|]; [|discriminate].
    destruct (subscript (data r) "uncovered_files") as [u|]; [|discriminate].
    intros [= <-]. left. eauto.
  - intros [= <-]. right. eauto.
Qed.

Lemma analyze_code_node_returns (w : World) (s p : WorkflowState) :
  analyze_code_node w s = Returns p ->
  (exists candidates,
     p = <[ "test_candidates" := candidates ]>
         (<[ "current_step" := VStr "analyze_code" ]> ∅))
  \/ (exists r, p = failed_update r "analyze_code" /\ is_success r = false).
Proof.
  unfold analyze_code_node. unfold_bind.
  destruct (subscript s "repo_path") as [path|e]; [|discriminate].
  destruct (run _ _).1 as [r|e]; [|discriminate].
  destruct (is_success r) eqn:Hs.
  - destruct (subscript (data r) "test_candidates") as [c|]; [|discriminate].
    intros [= <-]. left. eauto.
  - intros [= <-]. right. eauto.
Qed.

Lemma generate_tests_node_returns (w : World) (s p : WorkflowState) :
  generate_tests_node w s = Returns p ->
  (exists tests files,
     p = <[ "generated_tests" := tests ]>
         (<[ "test_files" := files ]>
         (<[ "current_step" := VStr "generate_tests" ]> ∅)))
  \/ (exists r, p = failed_update r "generate_tests" /\ is_success r = false).
Proof.
  unfold generate_tests_node. unfold_bind.
  destruct (create_llm w); [|discriminate].
  destruct (subscript s "test_candidates") as [c|e]; [|discriminate].
  destruct (subscript s "repo_path") as [path|e]; [|discriminate].
  destruct (run _ _).1 as [r|e]; [|discriminate].
  destruct (is_success r) eqn:Hs.
  - destruct (subscript (data r) "generated_tests") as [g|]; [|discriminate].
    destruct (subscript (data r) "test_files") as [f|]; [|discriminate].
    intros [= <-]. left. eauto.
  - intros [= <-]. right. eauto.
Qed.

(** X1. The review node never opens a pull request.  In a process whose
    settings cannot be loaded, [create_pr_node] raises what [get_settings()]
    raises.  In every other process and on every state it returns the
    update of a failure whose error is the one [GitAgent._create_branch]
    raises on an agent that has not cloned, with no [pr_url], [pr_id] or
    [branch_name]; what it returns then depends neither on the world nor on
    the state.  So an update the node returns is never the one of a pull
    request. *)
Theorem create_pr_node_never_opens_pr (p : Process) (state : WorkflowState) :
  (forall e, get_settings p = Raises e ->
     node_in p create_pr_node state = Raises e)
  /\ (forall settings, get_settings p = Returns settings ->
      exists update,
        node_in p create_pr_node state = Returns update
        /\ update !! "status" = Some (VStr "failed")
        /\ update !! "errors"
           = Some (VList
                [VStr "Repository not initialized. Run clone operation first."])
        /\ update !! "current_step" = Some (VStr "create_pr")
        /\ update !! "pr_url" = None /\ update !! "pr_id" = None
        /\ update !! "branch_name" = None)
  /\ (forall update, node_in p create_pr_node state = Returns update ->
      update !! "status" = Some (VStr "failed")
      /\ update !! "pr_url" = None)
  /\ forall w w' state',
       node_in (Configured w) create_pr_node state
       = node_in (Configured w') create_pr_node state'.
Proof.
  repeat apply conj.
  - intros e E. destruct p as [w|e']; [discriminate|].
    injection E as ->. reflexivity.
  - intros settings E. destruct p as [w|e']; [|discriminate].
    cbn [node_in]. rewrite create_pr_node_fails.
    eexists. split; [reflexivity|]. repeat split; reflexivity.
  - intros update E. destruct p as [w|e']; [|discriminate].
    cbn [node_in] in E. rewrite create_pr_node_fails in E.
    injection E as <-. split; reflexivity.
  - intros w w' state'. cbn [node_in]. now rewrite !create_pr_node_fails.
Qed.

(** X2. Whenever the router returns, its label is [analyze_code] or [end],
    and it is a key of the table of the conditional edge registered for
    [check_coverage]: the router never sends the executor to a label it
    does not know. *)
Theorem router_label_is_registered (w : World) (state : WorkflowState)
    (label : string)
    (Hlabel : should_generate_tests state = Returns label) :
  (label = "analyze_code" \/ label = "end")
  /\ exists router table,
       assoc "check_coverage" (conditional_edges (compiled_workflow w))
         = Some (router, table)
       /\ is_Some (assoc label table).
Proof.
  revert Hlabel. unfold should_generate_tests. unfold_bind.
  destruct (py_lt _ _) as [[|]|]; intros [= <-]; (split; [auto|]);
    eexists; eexists; (split; [reflexivity|]); simpl; eauto.
Qed.

(** X2 on the state a run starts from. *)
Lemma router_label_is_registered_witness :
  exists router table,
    assoc "check_coverage"
      (conditional_edges (compiled_workflow (healthy_world 95)))
      = Some (router, table)
    /\ is_Some (assoc "analyze_code" table).
Proof.
  apply (router_label_is_registered (healthy_world 95)
           (example_state (healthy_world 95)) "analyze_code").
  vm_compute. reflexivity.
Defined.

(** X3. Whatever the world, the fuel and the initial state, the nodes a run
    executes form an initial segment of clone_repository, check_coverage,
    analyze_code, generate_tests, create_pr: no node runs twice, none runs
    out of order, and none runs before its predecessors. *)
Theorem executed_nodes_in_fixed_order (w : World) (fuel : nat)
    (s : WorkflowState) :
  (invoke fuel (compiled_workflow w) s).1
    `prefix_of` ["clone_repository"; "check_coverage"; "analyze_code";
                 "generate_tests"; "create_pr"].
Proof.
  rewrite invoke_compiled_workflow.
  destruct fuel as [|fuel]; [now eexists|].
  rewrite step_clone_repository.
  destruct (clone_repository_node w s) as [p1|]; [|now eexists].
  destruct fuel as [|fuel]; [now eexists|].
  rewrite step_check_coverage.
  destruct (check_coverage_node w _) as [p2|]; [|now eexists].
  destruct (should_generate_tests _) as [label|]; [|now eexists].
  destruct (String.eqb label "analyze_code");
    [|destruct (String.eqb label "end"); now eexists].
  destruct fuel as [|fuel]; [now eexists|].
  rewrite step_analyze_code.
  destruct (analyze_code_node w _) as [p3|]; [|now eexists].
  destruct fuel as [|fuel]; [now eexists|].
  rewrite step_generate_tests.
  destruct (generate_tests_node w _) as [p4|]; [|now eexists].
  destruct fuel as [|fuel]; [now eexists|].
  rewrite step_create_pr.
  destruct (create_pr_node w _) as [p5|]; now eexists.
Qed.

Lemma failed_update_status (r : AgentResult) (step : string) :
  failed_update r step !! "status" = Some (VStr "failed").
Proof. reflexivity. Qed.

Lemma merge_status_failed (s : WorkflowState) (r : AgentResult) (step : string) :
  merge s (failed_update r step) !! "status" = Some (VStr "failed").
Proof. now rewrite merge_lookup, failed_update_status. Qed.

(** A run of the compiled workflow that returns either stopped after a
    successful clone and a successful coverage check, or ends in a state
    marked "failed". *)
Lemma invoke_returns_cases (w : World) (fuel : nat) (s0 final : WorkflowState)
    (tr : list string) :
  s0 !! "status" = None ->
  s0 !! "pr_url" = None ->
  invoke fuel (compiled_workflow w) s0 = (tr, Returns final) ->
  (tr = ["clone_repository"; "check_coverage"]
   /\ final !! "status" = None
   /\ final !! "pr_url" = None
   /\ is_Some (final !! "repo_path")
   /\ is_Some (final !! "coverage_before")
   /\ should_generate_tests final = Returns "end")
  \/ final !! "status" = Some (VStr "failed").
Proof.
  intros Hst Hpr. rewrite invoke_compiled_workflow.
  destruct fuel as [|fuel]; [discriminate|].
  rewrite step_clone_repository.
  destruct (clone_repository_node w s0) as [p1|] eqn:E1; [|discriminate].
  destruct fuel as [|fuel]; [discriminate|].
  rewrite step_check_coverage.
  destruct (check_coverage_node w (merge s0 p1)) as [p2|] eqn:E2; [|discriminate].
  destruct (should_generate_tests (merge (merge s0 p1) p2)) as [label|] eqn:Er;
    [|discriminate].
  destruct (String.eqb_spec label "analyze_code") as [->|Hna].
  - (* the run goes on to the review node, which fails *)
    destruct fuel as [|fuel]; [discriminate|].
    rewrite step_analyze_code.
    destruct (analyze_code_node w _) as [p3|]; [|discriminate].
    destruct fuel as [|fuel]; [discriminate|].
    rewrite step_generate_tests.
    destruct (generate_tests_node w _) as [p4|]; [|discriminate].
    destruct fuel as [|fuel]; [discriminate|].
    rewrite step_create_pr, create_pr_node_fails.
    intros [= <- <-]. right. now rewrite merge_lookup.
  - destruct (String.eqb_spec label "end") as [->|Hne]; [|discriminate].
    intros [= <- <-].
    destruct (clone_repository_node_returns _ _ _ E1)
      as [(path & name & ->)|(r1 & -> & _)];
      destruct (check_coverage_node_shape _ _ _ E2)
        as [(c & m & u & ->)|(r2 & -> & _)].
    + left. split; [reflexivity|].
      rewrite !merge_lookup. simpl.
      rewrite !lookup_insert_ne by discriminate.
      rewrite !lookup_insert_eq, !lookup_empty, Hst, Hpr.
      repeat split; eauto.
    + right. apply merge_status_failed.
    + right. rewrite merge_lookup. simpl.
      rewrite !lookup_insert_ne by discriminate. rewrite lookup_empty.
      apply merge_status_failed.
    + right. apply merge_status_failed.
Qed.

Lemma initial_state_has_no_status (w : World) (workflow_id : string)
    (request : WorkflowStartRequest) :
  initial_state w workflow_id request !! "status" = None
  /\ initial_state w workflow_id request !! "pr_url" = None.
Proof.
  unfold initial_state.
  split; rewrite !lookup_insert_ne by discriminate; apply lookup_empty.
Qed.

(** X4. The runner records "success" only for a run that stopped right
    after the coverage check: the clone and the coverage check both
    succeeded, the router answered [end], and the final state has no
    [status] and no [pr_url].  A run that goes on to generate tests is never
    recorded as a success. *)
Theorem success_means_stopped_after_coverage (w : World) (fuel : nat)
    (workflows workflows' : gmap string dict) (workflow_id : string)
    (request : WorkflowStartRequest) (entry' : dict)
    (Hrun : run_workflow_background w fuel workflows workflow_id request
            = Returns workflows')
    (Hentry : workflows' !! workflow_id = Some entry')
    (Hstatus : entry' !! "status" = Some (VStr "success")) :
  exists final,
    invoke fuel (compiled_workflow w) (initial_state w workflow_id request)
      = (["clone_repository"; "check_coverage"], Returns final)
    /\ final !! "status" = None
    /\ final !! "pr_url" = None
    /\ is_Some (final !! "repo_path")
    /\ is_Some (final !! "coverage_before")
    /\ should_generate_tests final = Returns "end".
Proof.
  revert Hrun. unfold run_workflow_background.
  destruct (workflows !! workflow_id) as [entry|] eqn:E;
    [|cbn; rewrite E; discriminate].
  destruct (invoke fuel (compiled_workflow w)
              (initial_state w workflow_id request)) as [tr [final|e]] eqn:Ei;
    simpl.
  - intros [= <-]. rewrite lookup_insert_eq in Hentry.
    injection Hentry as <-. revert Hstatus.
    unfold update, completed_entry.
    rewrite (lookup_union_Some_l _ _ _ _ (lookup_insert_eq _ _ _)).
    intros [= Hs].
    destruct (initial_state_has_no_status w workflow_id request) as [Hs0 Hp0].
    destruct (invoke_returns_cases w fuel _ final tr Hs0 Hp0 Ei)
      as [(-> & H1 & H2 & H3 & H4 & H5)|Hfailed].
    + exists final. repeat split; assumption.
    + exfalso. unfold recorded_status, get, get_default in Hs.
      rewrite Hfailed in Hs. discriminate.
  - destruct (isinstance e "Exception"); [|discriminate].
    rewrite lookup_insert_eq. intros [= <-].
    rewrite lookup_insert_eq in Hentry. injection Hentry as <-.
    revert Hstatus. unfold update, failed_entry.
    rewrite (lookup_union_Some_l _ _ _ _ (lookup_insert_eq _ _ _)).
    discriminate.
Qed.

(** X4 on the run that finds a coverage of 95 against a threshold of 90. *)
Lemma success_means_stopped_after_coverage_witness :
  (invoke 5 (compiled_workflow (healthy_world 95))
     (initial_state (healthy_world 95) "run-1" example_request)).1
  = ["clone_repository"; "check_coverage"].
Proof.
  set (ws := match run_workflow_background (healthy_world 95) 5
                     {[ "run-1" := {[ "status" := VStr "pending" ]} ]}
                     "run-1" example_request with
             | Returns x => x
             | Raises _ => ∅
             end).
  assert (Hrun : run_workflow_background (healthy_world 95) 5
                   {[ "run-1" := {[ "status" := VStr "pending" ]} ]}
                   "run-1" example_request = Returns ws)
    by (vm_cast_no_check (eq_refl (Returns ws))).
  set (en := default ∅ (ws !! "run-1")).
  assert (Hentry : ws !! "run-1" = Some en)
    by (vm_cast_no_check (eq_refl (Some en))).
  assert (Hstatus : en !! "status" = Some (VStr "success"))
    by (vm_cast_no_check (eq_refl (Some (VStr "success")))).
  destruct (success_means_stopped_after_coverage _ _ _ _ _ _ _
              Hrun Hentry Hstatus) as (final & Hinv & _).
  now rewrite Hinv.
Defined.

(** X5. A run that returns has executed either exactly the clone and the
    coverage check, or all five nodes, and [current_step] of the final state
    tells which: "check_coverage" in the first case, "create_pr" in the
    second. *)
Theorem returned_run_names_last_step (w : World) (fuel : nat)
    (s0 final : WorkflowState) (tr : list string)
    (Hrun : invoke fuel (compiled_workflow w) s0 = (tr, Returns final)) :
  (tr = ["clone_repository"; "check_coverage"]
   /\ final !! "current_step" = Some (VStr "check_coverage"))
  \/ (tr = ["clone_repository"; "check_coverage"; "analyze_code";
            "generate_tests"; "create_pr"]
      /\ final !! "current_step" = Some (VStr "create_pr")
      /\ final !! "status" = Some (VStr "failed")).
Proof.
  revert Hrun. rewrite invoke_compiled_workflow.
  destruct fuel as [|fuel]; [discriminate|].
  rewrite step_clone_repository.
  destruct (clone_repository_node w s0) as [p1|] eqn:E1; [|discriminate].
  destruct fuel as [|fuel]; [discriminate|].
  rewrite step_check_coverage.
  destruct (check_coverage_node w (merge s0 p1)) as [p2|] eqn:E2; [|discriminate].
  destruct (should_generate_tests (merge (merge s0 p1) p2)) as [label|] eqn:Er;
    [|discriminate].
  destruct (String.eqb_spec label "analyze_code") as [->|Hna].
  - destruct fuel as [|fuel]; [discriminate|].
    rewrite step_analyze_code.
    destruct (analyze_code_node w _) as [p3|]; [|discriminate].
    destruct fuel as [|fuel]; [discriminate|].
    rewrite step_generate_tests.
    destruct (generate_tests_node w _) as [p4|]; [|discriminate].
    destruct fuel as [|fuel]; [discriminate|].
    rewrite step_create_pr, create_pr_node_fails.
    intros [= <- <-]. right. rewrite !merge_lookup. auto.
  - destruct (String.eqb_spec label "end") as [->|Hne]; [|discriminate].
    intros [= <- <-]. left. split; [reflexivity|].
    rewrite merge_lookup.
    destruct (check_coverage_node_shape _ _ _ E2)
      as [(c & m & u & ->)|(r2 & -> & _)]; reflexivity.
Qed.

(** X5 on the run that finds a coverage of 60 against a threshold of 90. *)
Lemma returned_run_names_last_step_witness :
  (fun final : WorkflowState => final !! "current_step")
    <$> (invoke 5 (compiled_workflow (healthy_world 60))
           (example_state (healthy_world 60))).2
  = Returns (Some (VStr "create_pr")).
Proof.
  set (final := match (invoke 5 (compiled_workflow (healthy_world 60))
                         (example_state (healthy_world 60))).2 with
                | Returns x => x
                | Raises _ => ∅
                end).
  assert (Hrun : invoke 5 (compiled_workflow (healthy_world 60))
                   (example_state (healthy_world 60))
                 = (["clone_repository"; "check_coverage"; "analyze_code";
                     "generate_tests"; "create_pr"], Returns final))
    by (vm_cast_no_check
          (eq_refl (["clone_repository"; "check_coverage"; "analyze_code";
                     "generate_tests"; "create_pr"], Returns final))).
  destruct (returned_run_names_last_step _ _ _ _ _ Hrun)
    as [[Htr _]|(_ & Hstep & _)]; [discriminate Htr|].
  rewrite Hrun. simpl. now rewrite Hstep.
Defined.

(** ** Nodes on states that hold their inputs *)

Lemma run_returns_something {A : Type} `{BaseAgent A} (self : A) (context : dict) :
  raises_only_exceptions (execute self context).1 ->
  exists r, (run self context).1 = Returns r
    /\ (is_success r = true -> (execute self context).1 = Returns r).
Proof.
  intros Hexc. unfold run.
  destruct (execute self context) as [[r|e] self'] eqn:E; simpl in *.
  - eauto.
  - rewrite (Hexc e eq_refl). simpl. eexists. split; [reflexivity|].
    discriminate.
Qed.

Lemma isinstance_AgentError (msg : string) :
  isinstance (AgentError msg) "Exception" = true.
Proof. reflexivity. Qed.

Lemma isinstance_ValueError (msg : string) :
  isinstance (ValueError msg) "Exception" = true.
Proof. reflexivity. Qed.

Lemma validate_context_raises_exception (n : string) (c : dict) (ks : list string) :
  raises_only_exceptions (validate_context n c ks).
Proof.
  unfold validate_context. intros e.
  destruct (List.filter _ _); [discriminate|]. intros [= <-]. reflexivity.
Qed.

Lemma nodes_return_in_ordinary_world (w : World) (state : WorkflowState)
    (Hw : ordinary_world w) :
  (forall url, state !! "repo_url" = Some (VStr url) ->
     exists p, clone_repository_node w state = Returns p)
  /\ (is_Some (state !! "sonar_project_key") ->
      exists p, check_coverage_node w state = Returns p)
  /\ (is_Some (state !! "repo_path") ->
      exists p, analyze_code_node w state = Returns p)
  /\ (is_Some (state !! "test_candidates") ->
      is_Some (state !! "repo_path") ->
      (exists llm, create_llm w = Returns llm) ->
      exists p, generate_tests_node w state = Returns p)
  /\ exists p, create_pr_node w state = Returns p.
Proof.
  destruct Hw as (Hclone & Hmetrics & Hdetails & Hanalyze & Hgenerate).
  repeat apply conj.
  - intros url Hurl. unfold clone_repository_node, subscript. rewrite Hurl.
    unfold_bind. unfold run. cbn [execute GitAgent_agent].
    unfold GitAgent_execute, get_default.
    rewrite lookup_insert_eq. cbn [eq_str ne_str String.eqb Ascii.eqb Bool.eqb negb].
    unfold GitAgent_clone_repository.
    match goal with
    | |- context [validate_context ?n ?c ?ks] =>
        assert (Hv : validate_context n c ks = Returns tt) by reflexivity;
        rewrite Hv
    end.
    cbn [git_world new_GitAgent].
    match goal with
    | |- context [git_clone w ?c] =>
        pose proof (Hclone c) as Hc; destruct (git_clone w c) as [path|e]
    end.
    + eexists. reflexivity.
    + rewrite (Hc e eq_refl). eexists. reflexivity.
  - intros [key Hkey]. unfold check_coverage_node, subscript. rewrite Hkey.
    unfold_bind. unfold run. cbn [execute SonarQubeAgent_agent].
    unfold SonarQubeAgent_execute. rewrite validate_project_key.
    unfold_bind. unfold subscript at 1. rewrite lookup_singleton_eq.
    cbn [sonar_fetch_metrics sonar_fetch_coverage_details].
    pose proof (Hmetrics key) as Hm. pose proof (Hdetails key) as Hd.
    destruct (fetch_metrics w key) as [m|e].
    + destruct (fetch_coverage_details w key) as [d|e].
      * eexists. reflexivity.
      * rewrite (Hd e eq_refl). eexists. reflexivity.
    + rewrite (Hm e eq_refl). eexists. reflexivity.
  - intros [path Hpath]. unfold analyze_code_node, subscript. rewrite Hpath.
    unfold_bind. unfold run. cbn [execute AnalyzerAgent_agent].
    unfold AnalyzerAgent_execute.
    match goal with
    | |- context [validate_context ?n ?c ?ks] =>
        assert (Hv : validate_context n c ks = Returns tt)
          by (unfold validate_context, contains; simpl;
              rewrite lookup_insert_eq, lookup_insert_ne by discriminate;
              now rewrite lookup_insert_eq);
        rewrite Hv
    end.
    unfold_bind. cbn [analyzer_body].
    match goal with
    | |- context [analyze w ?c] =>
        pose proof (Hanalyze c) as Hc; destruct (analyze w c) as [l|e]
    end.
    + eexists. reflexivity.
    + rewrite (Hc e eq_refl). eexists. reflexivity.
  - intros [cands Hcands] [path Hpath] [llm Hllm].
    unfold generate_tests_node, subscript. rewrite Hllm, Hcands, Hpath.
    unfold_bind. unfold run. cbn [execute TestGeneratorAgent_agent].
    unfold TestGeneratorAgent_execute.
    match goal with
    | |- context [validate_context ?n ?c ?ks] =>
        assert (Hv : validate_context n c ks = Returns tt)
          by (unfold validate_context, contains; simpl;
              rewrite lookup_insert_eq, lookup_insert_ne by discriminate;
              now rewrite lookup_insert_eq);
        rewrite Hv
    end.
    unfold_bind. cbn [generator_body].
    match goal with
    | |- context [generate w ?c] =>
        pose proof (Hgenerate c) as Hc; destruct (generate w c) as [[g f]|e]
    end.
    + eexists. reflexivity.
    + rewrite (Hc e eq_refl). eexists. reflexivity.
  - eexists. apply create_pr_node_fails.
Qed.

(** X6. A node raises what [get_settings()] raises when the settings of the
    process cannot be loaded, whatever the state holds.  In a process whose
    settings are loaded and whose services raise only exceptions deriving
    from [Exception], a node returns an update (and does not raise) as soon
    as the state holds the keys it subscripts: [repo_url] (a string) for the
    clone, [sonar_project_key] for the coverage check, [repo_path] for the
    analysis, [test_candidates] and [repo_path] for the generation once the
    language model is built; the review node returns on every state. *)
Theorem nodes_return_on_present_inputs (p : Process) (state : WorkflowState) :
  (forall e, get_settings p = Raises e ->
     node_in p clone_repository_node state = Raises e
     /\ node_in p check_coverage_node state = Raises e
     /\ node_in p analyze_code_node state = Raises e
     /\ node_in p generate_tests_node state = Raises e
     /\ node_in p create_pr_node state = Raises e)
  /\ forall w, p = Configured w -> ordinary_world w ->
       (forall url, state !! "repo_url" = Some (VStr url) ->
          exists update, node_in p clone_repository_node state = Returns update)
       /\ (is_Some (state !! "sonar_project_key") ->
           exists update, node_in p check_coverage_node state = Returns update)
       /\ (is_Some (state !! "repo_path") ->
           exists update, node_in p analyze_code_node state = Returns update)
       /\ (is_Some (state !! "test_candidates") ->
           is_Some (state !! "repo_path") ->
           (exists llm, create_llm w = Returns llm) ->
           exists update, node_in p generate_tests_node state = Returns update)
       /\ exists update, node_in p create_pr_node state = Returns update.
Proof.
  split.
  - intros e E. destruct p as [w|e']; [discriminate|].
    injection E as ->. repeat split.
  - intros w -> Hw. cbn [node_in].
    apply (nodes_return_in_ordinary_world w state Hw).
Qed.

(** X6 on the world in which the clone and SonarQube fail with an
    [AgentError], where the clone and the coverage check still return, and
    on the process without a configuration file, where the clone raises the
    [ConfigurationError]. *)
Lemma nodes_return_on_present_inputs_witness :
  (exists update,
     node_in (Configured failing_world) clone_repository_node
       (example_state failing_world) = Returns update)
  /\ (exists update,
        node_in (Configured failing_world) check_coverage_node
          (example_state failing_world) = Returns update)
  /\ node_in unconfigured_process clone_repository_node
       (example_state failing_world)
     = Raises (ConfigurationError
                 "Configuration file not found: config/default.yaml").
Proof.
  assert (Hw : ordinary_world failing_world).
  { repeat split; intros c e; simpl; try discriminate;
      intros [= <-]; reflexivity. }
  destruct (nodes_return_on_present_inputs (Configured failing_world)
              (example_state failing_world)) as [_ Hconfigured].
  destruct (Hconfigured failing_world eq_refl Hw) as (Hclone & Hcheck & _).
  destruct (nodes_return_on_present_inputs unconfigured_process
              (example_state failing_world)) as [Hunconfigured _].
  split; [|split].
  - apply (Hclone "https://dev.azure.com/org/proj/_git/r.git"). reflexivity.
  - apply Hcheck. eexists. reflexivity.
  - apply (Hunconfigured _ eq_refl).
Defined.

(** ** The registry of runs *)

(** X7. A background run that completes touches the entry of its own run
    only: the other entries of the registry are unchanged, the keys of its
    entry that the run does not write ([created_at], [request], ...) keep
    their values, and the status it leaves is "success" or "failed", never
    "pending" or "running". *)
Theorem background_run_touches_own_entry (w : World) (fuel : nat)
    (workflows workflows' : gmap string dict) (workflow_id : string)
    (request : WorkflowStartRequest)
    (Hrun : run_workflow_background w fuel workflows workflow_id request
            = Returns workflows') :
  (forall other, other <> workflow_id ->
     workflows' !! other = workflows !! other)
  /\ exists entry entry',
       workflows !! workflow_id = Some entry
       /\ workflows' !! workflow_id = Some entry'
       /\ (entry' !! "status" = Some (VStr "success")
           \/ entry' !! "status" = Some (VStr "failed"))
       /\ is_Some (entry' !! "errors")
       /\ forall k, k <> "status" -> k <> "errors" -> k <> "current_step" ->
            k <> "coverage_before" -> k <> "pr_url" -> k <> "result" ->
            entry' !! k = entry !! k.
Proof.
  revert Hrun. unfold run_workflow_background.
  destruct (workflows !! workflow_id) as [entry|] eqn:E;
    [|cbn; rewrite E; discriminate].
  destruct (invoke fuel (compiled_workflow w)
              (initial_state w workflow_id request)) as [tr [final|e]]; simpl.
  - intros [= <-]. split.
    + intros other Hne. now rewrite !lookup_insert_ne by congruence.
    + exists entry. eexists. split; [reflexivity|].
      split; [apply lookup_insert_eq|].
      unfold update, completed_entry. repeat split.
      * rewrite (lookup_union_Some_l _ _ _ _ (lookup_insert_eq _ _ _)).
        unfold recorded_status.
        destruct (ne_str (get final "status") "failed"); auto.
      * eexists. apply lookup_union_Some_l.
        rewrite !lookup_insert_ne by discriminate. apply lookup_insert_eq.
      * intros k H1 H2 H3 H4 H5 H6. rewrite lookup_union_r.
        -- now rewrite lookup_insert_ne by congruence.
        -- rewrite !lookup_insert_ne by congruence. apply lookup_empty.
  - destruct (isinstance e "Exception"); [|discriminate].
    rewrite lookup_insert_eq. intros [= <-]. split.
    + intros other Hne. now rewrite !lookup_insert_ne by congruence.
    + exists entry. eexists. split; [reflexivity|].
      split; [apply lookup_insert_eq|].
      unfold update, failed_entry. repeat split.
      * right. apply lookup_union_Some_l, lookup_insert_eq.
      * eexists. apply lookup_union_Some_l.
        rewrite lookup_insert_ne by discriminate. apply lookup_insert_eq.
      * intros k H1 H2 H3 H4 H5 H6. rewrite lookup_union_r.
        -- now rewrite lookup_insert_ne by congruence.
        -- rewrite !lookup_insert_ne by congruence. apply lookup_empty.
Qed.

(** X7 on a registry of two runs, the first of which is aborted by the
    [KeyError] of the analysis node: the second entry is as before and the
    first keeps its [created_at]. *)
Lemma background_run_touches_own_entry_witness :
  (fun ws : gmap string dict =>
     (ws !! "run-2", ws !! "run-1" ≫= (.!! "created_at")))
    <$> run_workflow_background failing_world 5 example_registry "run-1"
          example_request
  = Returns (example_registry !! "run-2",
             Some (VStr "2024-01-01T00:00:00")).
Proof.
  set (ws := match run_workflow_background failing_world 5 example_registry
                     "run-1" example_request with
             | Returns x => x
             | Raises _ => ∅
             end).
  assert (Hrun : run_workflow_background failing_world 5 example_registry
                   "run-1" example_request = Returns ws)
    by (vm_cast_no_check (eq_refl (Returns ws))).
  destruct (background_run_touches_own_entry _ _ _ _ _ _ Hrun)
    as (Hother & entry & entry' & He & He' & _ & _ & Hkeep).
  rewrite Hrun. simpl. rewrite (Hother "run-2") by discriminate.
  rewrite He'. simpl. rewrite (Hkeep "created_at") by discriminate.
  assert (Hentry : example_registry !! "run-1"
                   = Some (<[ "status" := VStr "pending" ]>
                           (<[ "created_at" := VStr "2024-01-01T00:00:00" ]> ∅)))
    by reflexivity.
  rewrite Hentry in He. injection He as <-. reflexivity.
Defined.

Lemma run_workflow_background_entry (w : World) (fuel : nat)
    (workflows : gmap string dict) (workflow_id : string)
    (request : WorkflowStartRequest) (entry : dict) :
  workflows !! workflow_id = Some entry ->
  run_workflow_background w fuel workflows workflow_id request
  = match (invoke fuel (compiled_workflow w)
             (initial_state w workflow_id request)).2 with
    | Returns result =>
        Returns (<[ workflow_id :=
                      update (<[ "status" := VStr "running" ]> entry)
                        (completed_entry result) ]> workflows)
    | Raises e =>
        if isinstance e "Exception"
        then Returns (<[ workflow_id :=
                           update (<[ "status" := VStr "running" ]> entry)
                             (failed_entry e) ]> workflows)
        else Raises e
    end.
Proof.
  intros E. unfold run_workflow_background. rewrite E.
  destruct (invoke _ _ _).2 as [result|e]; simpl.
  - now rewrite insert_insert_eq.
  - destruct (isinstance e "Exception"); [|reflexivity].
    now rewrite lookup_insert_eq, insert_insert_eq.
Qed.

(** X8. [cancel_workflow] answers 404 for an identifier that is not
    registered; otherwise it marks the run "failed" with the single error
    "Cancelled by user".  The mark does not survive the completion of the
    run: [run_workflow_background] leaves the same status and the same
    errors for a run that was cancelled as for one that was not. *)
Theorem completion_overwrites_cancellation (w : World) (fuel : nat)
    (workflows : gmap string dict) (workflow_id : string)
    (request : WorkflowStartRequest) :
  match cancel_workflow workflows workflow_id with
  | Raises e =>
      workflows !! workflow_id = None
      /\ e = HTTPException_404 "Workflow not found"
  | Returns (cancelled, answer) =>
      (exists entry,
         cancelled !! workflow_id = Some entry
         /\ entry !! "status" = Some (VStr "failed")
         /\ entry !! "errors" = Some (VList [VStr "Cancelled by user"]))
      /\ (forall other, other <> workflow_id ->
            cancelled !! other = workflows !! other)
      /\ (fun ws : gmap string dict =>
            entry ← ws !! workflow_id;
            Some (entry !! "status", entry !! "errors"))
           <$> run_workflow_background w fuel cancelled workflow_id request
         = (fun ws : gmap string dict =>
              entry ← ws !! workflow_id;
              Some (entry !! "status", entry !! "errors"))
             <$> run_workflow_background w fuel workflows workflow_id request
  end.
Proof.
  unfold cancel_workflow.
  destruct (workflows !! workflow_id) as [entry|] eqn:E; [|auto].
  split; [|split].
  - eexists. split; [apply lookup_insert_eq|]. split.
    + rewrite lookup_insert_ne by discriminate. apply lookup_insert_eq.
    + apply lookup_insert_eq.
  - intros other Hne. now rewrite lookup_insert_ne by congruence.
  - rewrite (run_workflow_background_entry _ _ _ _ _ _ (lookup_insert_eq _ _ _)).
    rewrite (run_workflow_background_entry _ _ _ _ _ _ E).
    destruct (invoke _ _ _).2 as [result|e]; simpl.
    + rewrite !lookup_insert_eq. simpl. unfold update, completed_entry.
      rewrite !(lookup_union_Some_l _ _ _ _ (lookup_insert_eq _ _ _)).
      f_equal. f_equal. f_equal.
      erewrite !lookup_union_Some_l; [reflexivity| |];
        rewrite !lookup_insert_ne by discriminate; apply lookup_insert_eq.
    + destruct (isinstance e "Exception"); [|reflexivity]. simpl.
      rewrite !lookup_insert_eq. simpl. unfold update, failed_entry.
      rewrite !(lookup_union_Some_l _ _ _ _ (lookup_insert_eq _ _ _)).
      f_equal. f_equal. f_equal.
      erewrite !lookup_union_Some_l; [reflexivity| |];
        rewrite !lookup_insert_ne by discriminate; apply lookup_insert_eq.
Qed.


(** ** The agents behind the nodes *)

(** X10. A project for which SonarQube reports no [coverage] measure is
    taken to have a coverage of 0.0: the coverage check then succeeds with
    [coverage_before] 0.0, and with a threshold that is absent or a positive
    integer the router sends the run on to the analysis. *)
Theorem missing_coverage_measure_counts_as_zero (w : World)
    (state : WorkflowState) (key : value) (metrics details : dict)
    (Hkey : state !! "sonar_project_key" = Some key)
    (Hmetrics : fetch_metrics w key = Returns metrics)
    (Hnone : metrics !! "coverage" = None)
    (Hdetails : fetch_coverage_details w key = Returns details)
    (Hthreshold : state !! "coverage_threshold" = None
                  \/ exists t : Z, state !! "coverage_threshold" = Some (VInt t)
                                   /\ (0 < t)%Z) :
  exists p,
    check_coverage_node w state = Returns p
    /\ p !! "coverage_before" = Some (VFloat (Finite 0))
    /\ p !! "errors" = None
    /\ should_generate_tests (merge state p) = Returns "analyze_code".
Proof.
  unfold check_coverage_node, subscript. rewrite Hkey.
  unfold_bind. unfold run. cbn [execute SonarQubeAgent_agent].
  unfold SonarQubeAgent_execute. rewrite validate_project_key.
  unfold_bind. unfold subscript at 1. rewrite lookup_singleton_eq.
  cbn [sonar_fetch_metrics sonar_fetch_coverage_details].
  rewrite Hmetrics, Hdetails. unfold get_default at 1. rewrite Hnone.
  eexists. split; [reflexivity|]. split; [reflexivity|]. split; [reflexivity|].
  assert (Ht : exists q : Q,
            as_number (get_default
              (merge state
                 (<[ "coverage_before" := VFloat (Finite 0) ]>
                 (<[ "coverage_metrics" := VDict (map_to_list metrics) ]>
                 (<[ "uncovered_files" :=
                       get_default details "uncovered_files" (VList []) ]>
                 (<[ "current_step" := VStr "check_coverage" ]> ∅)))))
              "coverage_threshold" (VInt 90)) = Some (Finite q)
            /\ (0 < q)%Q).
  { unfold get_default. rewrite merge_lookup.
    rewrite !lookup_insert_ne by discriminate. rewrite lookup_empty.
    destruct Hthreshold as [E|(t & E & Hpos)]; rewrite E; simpl.
    - exists (inject_Z 90). split; reflexivity.
    - exists (inject_Z t). split; [reflexivity|].
      change 0%Q with (inject_Z 0). now rewrite <- Zlt_Qlt. }
  destruct Ht as (q & Ht & Hpos).
  erewrite should_generate_tests_numbers; [| |exact Ht].
  - apply float_lt_finite in Hpos. now rewrite Hpos.
  - unfold get_default. rewrite merge_lookup, lookup_insert_eq. reflexivity.
Qed.

(** X10 on a world whose SonarQube knows the project but has no coverage
    measure for it. *)
Lemma missing_coverage_measure_counts_as_zero_witness :
  exists p,
    check_coverage_node (world_with (Returns "workspaces/r") (Returns ∅))
      (example_state (world_with (Returns "workspaces/r") (Returns ∅)))
    = Returns p
    /\ p !! "coverage_before" = Some (VFloat (Finite 0)).
Proof.
  destruct (missing_coverage_measure_counts_as_zero
              (world_with (Returns "workspaces/r") (Returns ∅))
              (example_state (world_with (Returns "workspaces/r") (Returns ∅)))
              (VStr "proj") ∅ ∅ eq_refl eq_refl (lookup_empty _) eq_refl)
    as (p & Hp & Hcov & _).
  - right. exists 90%Z. split; [reflexivity | lia].
  - exists p. auto.
Defined.

Lemma GitAgent_execute_state (self : GitAgent) (context : dict) :
  let '(o, self') := GitAgent_execute self context in
  base_branch self' = base_branch self
  /\ branch_prefix self' = branch_prefix self
  /\ git_world self' = git_world self
  /\ (repo self' = true <->
      repo self = true
      \/ (eq_str (get_default context "operation" (VStr "clone")) "clone" = true
          /\ exists r, o = Returns r /\ is_success r = true)).
Proof.
  unfold GitAgent_execute.
  destruct (eq_str (get_default context "operation" (VStr "clone")) "clone")
    eqn:Hop.
  - unfold GitAgent_clone_repository.
    destruct (validate_context _ _ _); [|repeat split; auto;
      intros [?|(_ & r & ? & _)]; [assumption|discriminate]].
    destruct (git_clone _ _); simpl.
    + repeat split; auto. intros _. right. split; [reflexivity|]. eauto.
    + repeat split; auto. intros [?|(_ & r & ? & _)]; [assumption|discriminate].
  - assert (Hdone : forall o : outcome AgentResult,
              base_branch self = base_branch self
              /\ branch_prefix self = branch_prefix self
              /\ git_world self = git_world self
              /\ (repo self = true <->
                  repo self = true
                  \/ false = true /\ exists r, o = Returns r /\ is_success r = true)).
    { intros o. repeat split; auto. intros [?|[? _]]; [assumption|discriminate]. }
    destruct (eq_str _ "create_branch"); [apply Hdone|].
    destruct (eq_str _ "commit"); [apply Hdone|].
    destruct (eq_str _ "push"); apply Hdone.
Qed.

(** X11. A [GitAgent] must have cloned before it can do anything else: on
    an agent whose repository is not initialised, [run] with the operation
    create_branch, commit or push returns a failed result with the error
    "Repository not initialized. Run clone operation first." and leaves the
    agent as it is, whatever the world.  The repository of an agent becomes
    initialised exactly by a successful clone and is never reset. *)
Theorem git_agent_needs_clone (self : GitAgent) (context : dict) :
  (repo self = false ->
   (eq_str (get_default context "operation" (VStr "clone")) "create_branch" = true
    \/ eq_str (get_default context "operation" (VStr "clone")) "commit" = true
    \/ eq_str (get_default context "operation" (VStr "clone")) "push" = true) ->
   run self context
   = (Returns {| status := FAILED; data := ∅;
                 error := Some "Repository not initialized. Run clone operation first.";
                 metadata := {[ "exception_type" := VStr "AgentError" ]} |},
      self))
  /\ (repo (run self context).2 = true <->
      repo self = true
      \/ (eq_str (get_default context "operation" (VStr "clone")) "clone" = true
          /\ exists r, (run self context).1 = Returns r /\ is_success r = true)).
Proof.
  split.
  - intros Hrepo Hop. unfold run. cbn [execute GitAgent_agent].
    unfold GitAgent_execute.
    assert (Hne : forall v s t, s <> t -> eq_str v s = true -> eq_str v t = false).
    { intros v s t Hst. unfold eq_str, ne_str. destruct v; try discriminate.
      rewrite !negb_involutive. intros H%String.eqb_eq. subst.
      now apply String.eqb_neq. }
    unfold GitAgent_create_branch, GitAgent_commit_changes, GitAgent_push_changes.
    rewrite Hrepo. simpl negb. cbv iota.
    destruct Hop as [Hop|[Hop|Hop]].
    + rewrite (Hne _ "create_branch" "clone" ltac:(discriminate) Hop), Hop.
      reflexivity.
    + rewrite (Hne _ "commit" "clone" ltac:(discriminate) Hop),
        (Hne _ "commit" "create_branch" ltac:(discriminate) Hop), Hop.
      reflexivity.
    + rewrite (Hne _ "push" "clone" ltac:(discriminate) Hop),
        (Hne _ "push" "create_branch" ltac:(discriminate) Hop),
        (Hne _ "push" "commit" ltac:(discriminate) Hop), Hop. reflexivity.
  - pose proof (GitAgent_execute_state self context) as Hst.
    unfold run. cbn [execute GitAgent_agent].
    destruct (GitAgent_execute self context) as [[r|e] self'].
    + simpl. destruct Hst as (_ & _ & _ & Hst). rewrite Hst.
      split; (intros [?|(? & r' & ? & ?)]; [now left|right; eauto]).
    + destruct Hst as (_ & _ & _ & Hst).
      assert (Hself : repo self' = true <-> repo self = true).
      { rewrite Hst. split; [|auto].
        intros [?|(_ & r & ? & _)]; [assumption|discriminate]. }
      destruct (isinstance e "Exception"); simpl; rewrite Hself.
      * split; [auto|]. intros [?|(_ & r & [= <-] & Hs)]; [assumption|].
        discriminate Hs.
      * split; [auto|]. intros [?|(_ & r & ? & _)]; [assumption|discriminate].
Qed.

(** ** helpers.py: retry, on operations that do not always fail *)

Section RetryStops.

Context {T : Type}.
Variable time_sleep : Q -> outcome unit.
Variable max_attempts : Z.
Variable exponential_backoff : bool.
Variable exceptions : list string.
Variable func : nat -> outcome T.


End RetryStops.



(** X13. With [max_attempts] zero or negative the loop has no turn: the
    operation is never invoked and the wrapper raises the [RuntimeError]
    "Unexpected retry loop exit", the statement its comment calls
    unreachable. *)
Theorem retry_without_attempts {T : Type} (time_sleep : Q -> outcome unit)
    (n : Z) (d : Q) (backoff : bool)
    (exceptions : list string) (func : nat -> outcome T)
    (Hn : (n <= 0)%Z) :
  retry time_sleep n d backoff exceptions func
  = (Raises (RuntimeError "Unexpected retry loop exit"),
     {| invocations := 0; slept := [] |}).
Proof.
  unfold retry, py_range.
  replace (Z.to_nat (n + 1 - 1)) with 0 by lia. reflexivity.
Qed.

(** X13 with [max_attempts = 0]. *)
Lemma retry_without_attempts_witness :
  retry cpython_sleep 0 1 true ["Exception"] always_failing
  = (Raises (RuntimeError "Unexpected retry loop exit"),
     {| invocations := 0; slept := [] |}).
Proof. apply retry_without_attempts. lia. Defined.

(** ** helpers.py: truncate_string *)

Lemma string_length_app (a b : string) :
  String.length (a +:+ b) = String.length a + String.length b.
Proof.
  induction a as [|c a IH]; [reflexivity|].
  change (S (String.length (a +:+ b)) = S (String.length a + String.length b)).
  now rewrite IH.
Qed.

Lemma string_length_substring (n : nat) (s : string) :
  String.length (String.substring 0 n s) = Nat.min n (String.length s).
Proof.
  revert s. induction n as [|n IH]; intros s.
  - now destruct s.
  - destruct s as [|c s]; [reflexivity|]. simpl. now rewrite IH.
Qed.

Lemma substring_app (n : nat) (s : string) :
  exists rest, s = String.substring 0 n s +:+ rest.
Proof.
  revert s. induction n as [|n IH]; intros s.
  - exists s. now destruct s.
  - destruct s as [|c s]; [now exists ""|].
    destruct (IH s) as [rest E]. exists rest. simpl.
    change (String c s = String c (String.substring 0 n s +:+ rest)).
    now rewrite <- E.
Qed.

(** X14. When the suffix is no longer than [max_length], the result of
    [truncate_string] never exceeds [max_length]: a string that fits is
    returned as it is, and a longer one is cut to a prefix of itself
    followed by the suffix, [max_length] characters in all. *)
Theorem truncate_string_respects_limit (s suffix : string) (max_length : Z)
    (Hsuffix : (py_len suffix <= max_length)%Z) :
  (py_len (truncate_string s max_length suffix) <= max_length)%Z
  /\ ((py_len s <= max_length)%Z -> truncate_string s max_length suffix = s)
  /\ ((max_length < py_len s)%Z ->
      py_len (truncate_string s max_length suffix) = max_length
      /\ exists kept dropped,
           s = kept +:+ dropped
           /\ truncate_string s max_length suffix = kept +:+ suffix).
Proof.
  unfold truncate_string, py_len in *.
  destruct (Z.leb_spec (Z.of_nat (String.length s)) max_length) as [Hfit|Hlong].
  - split; [assumption|]. split; [reflexivity|]. lia.
  - assert (Hlen : Z.of_nat (String.length
                     (slice_to s (max_length - Z.of_nat (String.length suffix))
                      +:+ suffix)) = max_length).
    { rewrite string_length_app. unfold slice_to, py_len.
      destruct (Z.ltb_spec (max_length - Z.of_nat (String.length suffix)) 0);
        [lia|].
      rewrite string_length_substring. lia. }
    split; [lia|]. split; [lia|]. intros _. split; [assumption|].
    unfold slice_to.
    destruct (substring_app
                (Z.to_nat (if (max_length - Z.of_nat (String.length suffix) <? 0)%Z
                           then Z.max 0 (py_len s + (max_length
                                   - Z.of_nat (String.length suffix)))
                           else max_length - Z.of_nat (String.length suffix)))
                s) as [rest E].
    eexists. exists rest. split; [exact E | reflexivity].
Qed.

(** X14 with the default suffix and a limit of five characters. *)
Lemma truncate_string_respects_limit_witness :
  truncate_string "abcdefgh" 5 "..." = "ab..."
  /\ truncate_string "abc" 5 "..." = "abc".
Proof.
  assert (H : (py_len "..." <= 5)%Z) by (vm_compute; discriminate).
  destruct (truncate_string_respects_limit "abc" "..." 5 H) as (_ & Hfit & _).
  split; [reflexivity|]. apply Hfit. vm_compute. discriminate.
Defined.

(** X15. When the suffix is longer than [max_length], a string that does
    not fit comes back longer than [max_length]: the slice bound
    [max_length - len(suffix)] is negative and counts from the end of the
    string, so the result has [max(0, len(s) + max_length - len(suffix))]
    characters of the string plus the whole suffix. *)
Theorem truncate_string_exceeds_short_limit (s suffix : string) (max_length : Z)
    (Hlong : (max_length < py_len s)%Z)
    (Hsuffix : (max_length < py_len suffix)%Z) :
  py_len (truncate_string s max_length suffix)
  = (Z.max 0 (py_len s + max_length - py_len suffix) + py_len suffix)%Z
  /\ (max_length < py_len (truncate_string s max_length suffix))%Z.
Proof.
  unfold truncate_string, py_len in *.
  destruct (Z.leb_spec (Z.of_nat (String.length s)) max_length); [lia|].
  rewrite string_length_app. unfold slice_to, py_len.
  destruct (Z.ltb_spec (max_length - Z.of_nat (String.length suffix)) 0); [|lia].
  rewrite string_length_substring. lia.
Qed.

(** X15 with the default suffix and a limit of two characters: the result
    is longer than the string it was to shorten. *)
Lemma truncate_string_exceeds_short_limit_witness :
  py_len (truncate_string "abc" 2 "...") = 5%Z
  /\ truncate_string "abc" 2 "..." = "ab...".
Proof.
  assert (H1 : (2 < py_len "abc")%Z) by (vm_compute; reflexivity).
  assert (H2 : (2 < py_len "...")%Z) by (vm_compute; reflexivity).
  destruct (truncate_string_exceeds_short_limit "abc" "..." 2 H1 H2) as [Hlen _].
  split; [exact Hlen | reflexivity].
Defined.

(** ** helpers.py: sanitize_branch_name *)

Ltac each_char c := destruct c as [[|] [|] [|] [|] [|] [|] [|] [|]].

Lemma sanitized_lower_is_branch_char (c : ascii) :
  branch_char (sanitize_char (py_lower_char c)) = true.
Proof. each_char c; vm_compute; reflexivity. Qed.

Lemma dash_is_branch_char (c : ascii) : is_dash c = true -> branch_char c = true.
Proof. each_char c; vm_compute; intros H; try reflexivity; discriminate H. Qed.

Lemma branch_char_fixed (c : ascii) :
  branch_char c = true ->
  py_lower_char c = c /\ sanitize_char c = c /\ py_isspace c = false.
Proof.
  each_char c; vm_compute; intros H; try discriminate H; repeat split.
Qed.

Lemma all_chars_map (p : ascii -> bool) (f : ascii -> ascii) (s : string) :
  (forall c, p (f c) = true) -> all_chars p (map_chars f s) = true.
Proof.
  intros Hf. induction s as [|c s IH]; [reflexivity|].
  simpl. now rewrite Hf, IH.
Qed.

Lemma map_chars_map_chars (f g : ascii -> ascii) (s : string) :
  map_chars f (map_chars g s) = map_chars (fun c => f (g c)) s.
Proof.
  induction s as [|c s IH]; [reflexivity|]. simpl. now rewrite IH.
Qed.

Lemma map_chars_fixed (p : ascii -> bool) (f : ascii -> ascii) (s : string) :
  (forall c, p c = true -> f c = c) ->
  all_chars p s = true -> map_chars f s = s.
Proof.
  intros Hf. induction s as [|c s IH]; [reflexivity|].
  simpl. intros [Hc Hs]%andb_prop. now rewrite (Hf c Hc), (IH Hs).
Qed.

Lemma all_chars_lstrip (p q : ascii -> bool) (s : string) :
  all_chars p s = true -> all_chars p (lstrip q s) = true.
Proof.
  induction s as [|c s IH]; [reflexivity|].
  simpl. intros H. destruct (andb_prop _ _ H) as [Hc Hs].
  destruct (q c); [auto|]. exact H.
Qed.

Lemma all_chars_rstrip (p q : ascii -> bool) (s : string) :
  all_chars p s = true -> all_chars p (rstrip q s) = true.
Proof.
  induction s as [|c s IH]; [reflexivity|].
  simpl. intros [Hc Hs]%andb_prop. specialize (IH Hs).
  destruct (rstrip q s) as [|c' r].
  - destruct (q c); [reflexivity|]. simpl. now rewrite Hc.
  - simpl in *. now rewrite Hc, IH.
Qed.

(** Induction on strings two characters at a time. *)
Lemma string_ind2 (P : string -> Prop) :
  P "" ->
  (forall c, P (String c "")) ->
  (forall c c' s, P s -> P (String c' s) -> P (String c (String c' s))) ->
  forall s, P s.
Proof.
  intros H0 H1 H2.
  assert (H : forall s, P s /\ forall c, P (String c s)).
  { induction s as [|c' s [IHs IHc]]; [auto|]. split; [apply IHc|].
    intros c. apply H2; [exact IHs | apply IHc]. }
  intros s. apply H.
Qed.

Lemma all_chars_replace (p : ascii -> bool) (s : string) :
  (forall c, is_dash c = true -> p c = true) ->
  all_chars p s = true -> all_chars p (replace_double_dash s) = true.
Proof.
  intros Hdash. induction s as [|c|c c' s IH1 IH2] using string_ind2; auto.
  intros H. change (all_chars p (String c (String c' s)))
    with (p c && all_chars p (String c' s)) in H.
  destruct (andb_prop _ _ H) as [Hc Hs].
  change (replace_double_dash (String c (String c' s)))
    with (if is_dash c && is_dash c'
          then String "-"%char (replace_double_dash s)
          else String c (replace_double_dash (String c' s))).
  destruct (is_dash c && is_dash c') eqn:E.
  - simpl in Hs. destruct (andb_prop _ _ Hs) as [_ Hs'].
    simpl. rewrite (IH1 Hs'). rewrite (Hdash "-"%char eq_refl). reflexivity.
  - change (p c && all_chars p (replace_double_dash (String c' s)) = true).
    now rewrite Hc, (IH2 Hs).
Qed.

Lemma length_replace (s : string) :
  String.length (replace_double_dash s) <= String.length s
  /\ (has_double_dash s = true ->
      String.length (replace_double_dash s) < String.length s).
Proof.
  induction s as [|c|c c' s IH1 IH2] using string_ind2.
  - split; [reflexivity | discriminate].
  - split; [reflexivity | discriminate].
  - change (replace_double_dash (String c (String c' s)))
      with (if is_dash c && is_dash c'
            then String "-"%char (replace_double_dash s)
            else String c (replace_double_dash (String c' s))).
    change (has_double_dash (String c (String c' s)))
      with ((is_dash c && is_dash c') || has_double_dash (String c' s)).
    destruct (is_dash c && is_dash c'); simpl orb.
    + destruct IH1 as [IH1 _].
      change (String.length (String "-"%char (replace_double_dash s)))
        with (S (String.length (replace_double_dash s))).
      change (String.length (String c (String c' s)))
        with (S (S (String.length s))).
      split; [lia | intros _; lia].
    + destruct IH2 as [IHle IHlt].
      change (String.length (String c (replace_double_dash (String c' s))))
        with (S (String.length (replace_double_dash (String c' s)))).
      change (String.length (String c (String c' s)))
        with (S (String.length (String c' s))).
      split; [lia|]. intros H. specialize (IHlt H). lia.
Qed.

Lemma all_chars_collapse (p : ascii -> bool) (fuel : nat) (s : string) :
  (forall c, is_dash c = true -> p c = true) ->
  all_chars p s = true -> all_chars p (collapse_dashes fuel s) = true.
Proof.
  intros Hdash. revert s. induction fuel as [|fuel IH]; intros s H; [exact H|].
  simpl. destruct (has_double_dash s); [|exact H].
  apply IH, all_chars_replace; assumption.
Qed.

Lemma collapse_has_no_double_dash (fuel : nat) (s : string) :
  String.length s <= fuel -> has_double_dash (collapse_dashes fuel s) = false.
Proof.
  revert s. induction fuel as [|fuel IH]; intros s Hlen.
  - destruct s; [reflexivity | simpl in Hlen; lia].
  - simpl. destruct (has_double_dash s) eqn:E; [|exact E].
    apply IH. destruct (length_replace s) as [_ Hlt]. specialize (Hlt E). lia.
Qed.

Lemma collapse_fixed (fuel : nat) (s : string) :
  has_double_dash s = false -> collapse_dashes fuel s = s.
Proof. intros E. destruct fuel; [reflexivity|]. simpl. now rewrite E. Qed.

Lemma first_char_lstrip (p : ascii -> bool) (s : string) (c : ascii) :
  first_char (lstrip p s) = Some c -> p c = false.
Proof.
  induction s as [|a s IH]; [discriminate|].
  simpl. destruct (p a) eqn:E; [exact IH|].
  simpl. intros [= <-]. exact E.
Qed.

Lemma rstrip_cons (p : ascii -> bool) (a : ascii) (s : string) :
  rstrip p (String a s) =
  match rstrip p s with
  | EmptyString => if p a then EmptyString else String a EmptyString
  | r => String a r
  end.
Proof. reflexivity. Qed.

Lemma last_char_rstrip (p : ascii -> bool) (s : string) (c : ascii) :
  last_char (rstrip p s) = Some c -> p c = false.
Proof.
  induction s as [|a s IH]; [discriminate|].
  rewrite rstrip_cons. destruct (rstrip p s) as [|b r].
  - destruct (p a) eqn:E; [discriminate|]. simpl. intros [= <-]. exact E.
  - exact IH.
Qed.

Lemma first_char_rstrip (p : ascii -> bool) (s : string) (c : ascii) :
  first_char (rstrip p s) = Some c -> first_char s = Some c.
Proof.
  destruct s as [|a s]; [discriminate|].
  rewrite rstrip_cons. destruct (rstrip p s) as [|b r].
  - destruct (p a); [discriminate|]. exact (fun H => H).
  - exact (fun H => H).
Qed.

Lemma has_double_dash_tail (a : ascii) (s : string) :
  has_double_dash (String a s) = false -> has_double_dash s = false.
Proof.
  destruct s as [|b s]; [reflexivity|].
  change (has_double_dash (String a (String b s)))
    with ((is_dash a && is_dash b) || has_double_dash (String b s)).
  intros H. apply orb_false_elim in H. apply H.
Qed.

Lemma has_double_dash_lstrip (p : ascii -> bool) (s : string) :
  has_double_dash s = false -> has_double_dash (lstrip p s) = false.
Proof.
  induction s as [|a s IH]; [reflexivity|]. intros H.
  simpl lstrip. destruct (p a); [|exact H].
  apply IH, (has_double_dash_tail a), H.
Qed.

Lemma has_double_dash_rstrip (p : ascii -> bool) (s : string) :
  has_double_dash s = false -> has_double_dash (rstrip p s) = false.
Proof.
  induction s as [|a s IH]; [reflexivity|]. intros H.
  specialize (IH (has_double_dash_tail a s H)).
  rewrite rstrip_cons.
  pose proof (first_char_rstrip p s) as Hfirst.
  destruct (rstrip p s) as [|b r].
  - destruct (p a); reflexivity.
  - specialize (Hfirst b eq_refl). destruct s as [|b' s]; [discriminate|].
    injection Hfirst as ->.
    change (has_double_dash (String a (String b s)))
      with ((is_dash a && is_dash b) || has_double_dash (String b s)) in H.
    apply orb_false_elim in H. destruct H as [Hab _].
    change ((is_dash a && is_dash b) || has_double_dash (String b r) = false).
    now rewrite Hab, IH.
Qed.

Lemma lstrip_fixed (p : ascii -> bool) (s : string) :
  (forall c, first_char s = Some c -> p c = false) -> lstrip p s = s.
Proof.
  destruct s as [|a s]; [reflexivity|]. intros H.
  simpl. now rewrite (H a eq_refl).
Qed.

Lemma rstrip_fixed (p : ascii -> bool) (s : string) :
  (forall c, last_char s = Some c -> p c = false) -> rstrip p s = s.
Proof.
  induction s as [|a s IH]; [reflexivity|]. intros H.
  rewrite rstrip_cons. destruct s as [|b s].
  - simpl. now rewrite (H a eq_refl).
  - rewrite IH; [reflexivity|]. intros c Hc. apply H. exact Hc.
Qed.

Lemma all_chars_first (p : ascii -> bool) (s : string) (c : ascii) :
  all_chars p s = true -> first_char s = Some c -> p c = true.
Proof.
  destruct s as [|a s]; [discriminate|].
  simpl. intros [Ha _]%andb_prop [= <-]. exact Ha.
Qed.

Lemma all_chars_last (p : ascii -> bool) (s : string) (c : ascii) :
  all_chars p s = true -> last_char s = Some c -> p c = true.
Proof.
  induction s as [|a s IH]; [discriminate|].
  simpl all_chars. intros [Ha Hs]%andb_prop.
  destruct s as [|b s].
  - simpl. intros [= <-]. exact Ha.
  - intros H. apply (IH Hs). exact H.
Qed.

Lemma all_chars_map_chars (p : ascii -> bool) (f : ascii -> ascii) (s : string) :
  all_chars p (map_chars f s) = all_chars (fun c => p (f c)) s.
Proof.
  induction s as [|a s IH]; [reflexivity|]. simpl. now rewrite IH.
Qed.

(** What the four steps of [sanitize_branch_name] establish. *)
Lemma sanitize_branch_name_shape (name : string) :
  let r := sanitize_branch_name name in
  all_chars branch_char r = true
  /\ has_double_dash r = false
  /\ (forall c, first_char r = Some c -> is_dash c = false)
  /\ (forall c, last_char r = Some c -> is_dash c = false).
Proof.
  unfold sanitize_branch_name, strip, py_lower. cbv zeta.
  set (t := map_chars sanitize_char _).
  set (u := collapse_dashes (String.length t) t).
  assert (Ht : all_chars branch_char t = true).
  { subst t. 
    set (x := rstrip py_isspace (lstrip py_isspace (map_chars py_lower_char name))).
    assert (Hx : all_chars (fun c => branch_char (sanitize_char c)) x = true).
    { subst x. apply all_chars_rstrip, all_chars_lstrip, all_chars_map.
      apply sanitized_lower_is_branch_char. }
    rewrite all_chars_map_chars. exact Hx. }
  assert (Hu : all_chars branch_char u = true).
  { apply all_chars_collapse; [apply dash_is_branch_char | exact Ht]. }
  assert (Hdd : has_double_dash u = false).
  { apply collapse_has_no_double_dash. reflexivity. }
  repeat apply conj.
  - apply all_chars_rstrip, all_chars_lstrip, Hu.
  - apply has_double_dash_rstrip, has_double_dash_lstrip, Hdd.
  - intros c Hc. apply first_char_rstrip in Hc.
    apply (first_char_lstrip _ _ _ Hc).
  - intros c Hc. apply (last_char_rstrip _ _ _ Hc).
Qed.

Lemma sanitize_branch_name_fixed (r : string) :
  all_chars branch_char r = true ->
  has_double_dash r = false ->
  (forall c, first_char r = Some c -> is_dash c = false) ->
  (forall c, last_char r = Some c -> is_dash c = false) ->
  sanitize_branch_name r = r.
Proof.
  intros Hall Hdd Hfirst Hlast.
  assert (Hspace_first : forall c, first_char r = Some c -> py_isspace c = false).
  { intros c Hc. apply branch_char_fixed, (all_chars_first _ _ _ Hall Hc). }
  assert (Hspace_last : forall c, last_char r = Some c -> py_isspace c = false).
  { intros c Hc. apply branch_char_fixed, (all_chars_last _ _ _ Hall Hc). }
  unfold sanitize_branch_name, strip, py_lower. cbv zeta.
  rewrite (map_chars_fixed branch_char py_lower_char r);
    [|intros c Hc; apply branch_char_fixed, Hc | exact Hall].
  rewrite (lstrip_fixed py_isspace r Hspace_first).
  rewrite (rstrip_fixed py_isspace r Hspace_last).
  rewrite (map_chars_fixed branch_char sanitize_char r);
    [|intros c Hc; apply branch_char_fixed, Hc | exact Hall].
  rewrite (collapse_fixed _ r Hdd).
  rewrite (lstrip_fixed is_dash r Hfirst).
  apply (rstrip_fixed is_dash r Hlast).
Qed.

(** X16. Whatever the name, the sanitized branch name is made only of ASCII
    lower-case letters, digits, [-] and [_] and of the non-ASCII characters
    that Python counts as alphanumeric and leaves unchanged under [lower()]
    (strings over the code points below 256): no space, no slash, no
    upper-case letter is left. *)
Theorem sanitize_branch_name_characters (name : string) :
  all_chars branch_char (sanitize_branch_name name) = true.
Proof. apply (sanitize_branch_name_shape name). Qed.

(** X17. Whatever the name, the sanitized branch name contains no two
    consecutive hyphens and neither begins nor ends with a hyphen. *)
Theorem sanitize_branch_name_hyphens (name : string) :
  has_double_dash (sanitize_branch_name name) = false
  /\ first_char (sanitize_branch_name name) <> Some "-"%char
  /\ last_char (sanitize_branch_name name) <> Some "-"%char.
Proof.
  destruct (sanitize_branch_name_shape name) as (_ & Hdd & Hfirst & Hlast).
  repeat apply conj.
  - exact Hdd.
  - intros H. specialize (Hfirst _ H). discriminate Hfirst.
  - intros H. specialize (Hlast _ H). discriminate Hlast.
Qed.

(** X18. The names that [sanitize_branch_name] leaves unchanged are exactly
    those made of the characters of X16, with no two consecutive hyphens and
    no hyphen at either end. *)
Theorem sanitize_branch_name_fixed_points (r : string) :
  sanitize_branch_name r = r
  <-> (all_chars branch_char r = true
       /\ has_double_dash r = false
       /\ first_char r <> Some "-"%char
       /\ last_char r <> Some "-"%char).
Proof.
  split.
  - intros H. destruct (sanitize_branch_name_shape r) as (Ha & Hdd & Hf & Hl).
    rewrite H in Ha, Hdd, Hf, Hl. repeat apply conj; try assumption.
    + intros E. specialize (Hf _ E). discriminate Hf.
    + intros E. specialize (Hl _ E). discriminate Hl.
  - intros (Ha & Hdd & Hf & Hl). apply sanitize_branch_name_fixed; try assumption.
    + intros c Hc. destruct (is_dash c) eqn:E; [|reflexivity].
      apply Ascii.eqb_eq in E. subst c. contradiction.
    + intros c Hc. destruct (is_dash c) eqn:E; [|reflexivity].
      apply Ascii.eqb_eq in E. subst c. contradiction.
Qed.

(** X19. Sanitizing is idempotent: a sanitized name is left as it is by a
    second pass. *)
Theorem sanitize_branch_name_idempotent (name : string) :
  sanitize_branch_name (sanitize_branch_name name) = sanitize_branch_name name.
Proof.
  destruct (sanitize_branch_name_shape name) as (Ha & Hdd & Hf & Hl).
  apply sanitize_branch_name_fixed; assumption.
Qed.

(** The characters that are neither alphanumeric nor [_]. *)
Lemma word_char_lower (c : ascii) : word_char (py_lower_char c) = word_char c.
Proof. each_char c; vm_compute; reflexivity. Qed.

Lemma word_char_sanitize (c : ascii) : word_char (sanitize_char c) = word_char c.
Proof. each_char c; vm_compute; reflexivity. Qed.

Lemma space_is_not_word (c : ascii) : py_isspace c = true -> word_char c = false.
Proof. each_char c; vm_compute; intros H; try reflexivity; discriminate H. Qed.

Lemma dash_is_not_word (c : ascii) : is_dash c = true -> word_char c = false.
Proof. intros ->%Ascii.eqb_eq. reflexivity. Qed.

Lemma branch_char_not_word (c : ascii) :
  branch_char c = true -> word_char c = false -> is_dash c = true.
Proof.
  each_char c; vm_compute; intros H1 H2; try reflexivity;
    first [discriminate H1 | discriminate H2].
Qed.

Lemma all_chars_ext (p q : ascii -> bool) (s : string) :
  (forall c, p c = q c) -> all_chars p s = all_chars q s.
Proof.
  intros H. induction s as [|a s IH]; [reflexivity|]. simpl. now rewrite H, IH.
Qed.

Lemma all_chars_lstrip_eq (p q : ascii -> bool) (s : string) :
  (forall c, q c = true -> p c = true) ->
  all_chars p (lstrip q s) = all_chars p s.
Proof.
  intros H. induction s as [|a s IH]; [reflexivity|].
  simpl. destruct (q a) eqn:E; [|reflexivity].
  now rewrite IH, (H a E).
Qed.

Lemma all_chars_rstrip_eq (p q : ascii -> bool) (s : string) :
  (forall c, q c = true -> p c = true) ->
  all_chars p (rstrip q s) = all_chars p s.
Proof.
  intros H. induction s as [|a s IH]; [reflexivity|].
  rewrite rstrip_cons. destruct (rstrip q s) as [|b r].
  - simpl in IH. simpl all_chars at 2. rewrite <- IH.
    destruct (q a) eqn:E; [now rewrite (H a E)|]. simpl. now rewrite andb_true_r.
  - change (p a && all_chars p (String b r) = p a && all_chars p s).
    now rewrite IH.
Qed.

Lemma all_chars_replace_eq (p : ascii -> bool) (s : string) :
  (forall c, is_dash c = true -> p c = true) ->
  all_chars p (replace_double_dash s) = all_chars p s.
Proof.
  intros Hdash. induction s as [|c|c c' s IH1 IH2] using string_ind2; auto.
  change (replace_double_dash (String c (String c' s)))
    with (if is_dash c && is_dash c'
          then String "-"%char (replace_double_dash s)
          else String c (replace_double_dash (String c' s))).
  change (all_chars p (String c (String c' s)))
    with (p c && (p c' && all_chars p s)).
  destruct (is_dash c && is_dash c') eqn:E.
  - apply andb_prop in E as [Hc Hc'].
    rewrite (Hdash c Hc), (Hdash c' Hc').
    change (p "-"%char && all_chars p (replace_double_dash s)
            = true && (true && all_chars p s)).
    now rewrite (Hdash "-"%char eq_refl), IH1.
  - change (p c && all_chars p (replace_double_dash (String c' s))
            = p c && (p c' && all_chars p s)).
    now rewrite IH2.
Qed.

Lemma all_chars_collapse_eq (p : ascii -> bool) (fuel : nat) (s : string) :
  (forall c, is_dash c = true -> p c = true) ->
  all_chars p (collapse_dashes fuel s) = all_chars p s.
Proof.
  intros Hdash. revert s. induction fuel as [|fuel IH]; intros s; [reflexivity|].
  simpl. destruct (has_double_dash s); [|reflexivity].
  now rewrite IH, all_chars_replace_eq.
Qed.

(** Sanitizing neither removes nor introduces a character that is
    alphanumeric or [_]. *)
Lemma sanitize_branch_name_word_chars (name : string) :
  all_chars (fun c => negb (word_char c)) (sanitize_branch_name name)
  = all_chars (fun c => negb (word_char c)) name.
Proof.
  assert (Hdash : forall c, is_dash c = true -> negb (word_char c) = true).
  { intros c Hc. now rewrite (dash_is_not_word c Hc). }
  assert (Hspace : forall c, py_isspace c = true -> negb (word_char c) = true).
  { intros c Hc. now rewrite (space_is_not_word c Hc). }
  unfold sanitize_branch_name, strip, py_lower. cbv zeta.
  rewrite (all_chars_rstrip_eq _ is_dash _ Hdash).
  rewrite (all_chars_lstrip_eq _ is_dash _ Hdash).
  rewrite (all_chars_collapse_eq _ _ _ Hdash).
  rewrite all_chars_map_chars.
  rewrite (all_chars_ext _ (fun c => negb (word_char c)));
    [|intros c; now rewrite word_char_sanitize].
  rewrite (all_chars_rstrip_eq _ py_isspace _ Hspace).
  rewrite (all_chars_lstrip_eq _ py_isspace _ Hspace).
  rewrite all_chars_map_chars.
  apply all_chars_ext. intros c. now rewrite word_char_lower.
Qed.

(** X20. The sanitized branch name is empty exactly when the name holds no
    alphanumeric character and no [_]: a name made of spaces and
    punctuation only is sanitized to the empty string, and every other name
    to a non-empty one. *)
Theorem sanitize_branch_name_empty_iff (name : string) :
  sanitize_branch_name name = ""
  <-> all_chars (fun c => negb (word_char c)) name = true.
Proof.
  rewrite <- sanitize_branch_name_word_chars. split.
  - intros ->. reflexivity.
  - intros Hnone.
    destruct (sanitize_branch_name_shape name) as (Ha & _ & Hf & _).
    destruct (sanitize_branch_name name) as [|a r]; [reflexivity|].
    exfalso. specialize (Hf a eq_refl).
    simpl in Ha, Hnone.
    apply andb_prop in Ha as [Ha _]. apply andb_prop in Hnone as [Hn _].
    apply negb_true_iff in Hn.
    rewrite (branch_char_not_word a Ha Hn) in Hf. discriminate Hf.
Qed.

(** ** settings.py: substitute_env_vars *)

(** Induction on values, with the hypothesis for every item of a list and
    every value of a dictionary. *)
Lemma value_ind_nested (P : value -> Prop) :
  P VNone -> (forall b, P (VBool b)) -> (forall n, P (VInt n)) ->
  (forall x, P (VFloat x)) -> (forall s, P (VStr s)) ->
  (forall l, Forall P l -> P (VList l)) ->
  (forall l, Forall (fun kv => P kv.2) l -> P (VDict l)) ->
  forall v, P v.
Proof.
  intros HNone HBool HInt HFloat HStr HList HDict.
  fix IH 1. intros [| b | n | x | s | l | l].
  - exact HNone.
  - apply HBool.
  - apply HInt.
  - apply HFloat.
  - apply HStr.
  - apply HList. induction l as [|v l IHl]; constructor; [apply IH | exact IHl].
  - apply HDict. induction l as [|[k v] l IHl]; constructor; [apply IH | exact IHl].
Qed.

Lemma substring_whole_prefix (a b : string) :
  String.substring 0 (String.length a) (a +:+ b) = a.
Proof.
  induction a as [|c a IH]; [now destruct b|].
  change (String c (String.substring 0 (String.length a) (a +:+ b)) = String c a).
  now rewrite IH.
Qed.

Lemma substring_whole_suffix (a b : string) :
  String.substring (String.length a) (String.length b) (a +:+ b) = b.
Proof.
  induction a as [|c a IH].
  - change (String.substring 0 (String.length b) b = b).
    rewrite <- (string_app_empty_r b) at 2. apply substring_whole_prefix.
  - exact IH.
Qed.

Lemma endswith_app (a b : string) : endswith (a +:+ b) b = true.
Proof.
  unfold endswith. cbv zeta. rewrite string_length_app.
  replace (String.length a + String.length b - String.length b)
    with (String.length a) by lia.
  rewrite substring_whole_suffix, String.eqb_refl.
  rewrite andb_true_r. apply Nat.leb_le. lia.
Qed.

(** The placeholder around [spec] is recognised, and its inside is [spec]. *)
Lemma placeholder_inside (spec : string) :
  is_placeholder ("${" +:+ spec +:+ "}") = true
  /\ slice ("${" +:+ spec +:+ "}") 2 (-1) = spec.
Proof.
  split.
  - unfold is_placeholder. rewrite andb_true_iff. split.
    + unfold startswith.
      change ("${" +:+ spec +:+ "}") with (String "$" (String "{" (spec +:+ "}"))).
      simpl. now destruct (spec +:+ "}").
    + rewrite <- string_app_assoc. apply endswith_app.
  - unfold slice, py_len. cbv zeta.
    change ("${" +:+ spec +:+ "}") with (String "$" (String "{" (spec +:+ "}"))).
    change (String.length (String "$" (String "{" (spec +:+ "}"))))
      with (S (S (String.length (spec +:+ "}")))).
    rewrite string_length_app.
    change (String.length "}") with 1.
    change (2 <? 0)%Z with false. change (-1 <? 0)%Z with true. cbv iota.
    rewrite Z.min_r by lia. rewrite Z.max_r by lia.
    replace (Z.to_nat (Z.of_nat (S (S (String.length spec + 1))) + -1 - 2))
      with (String.length spec) by lia.
    change (Z.to_nat 2) with 2.
    change (String.substring 0 (String.length spec) (spec +:+ "}") = spec).
    apply substring_whole_prefix.
Qed.

Lemma has_char_app (sep : ascii) (a b : string) :
  has_char sep (a +:+ b) = has_char sep a || has_char sep b.
Proof.
  induction a as [|c a IH]; [reflexivity|].
  change (Ascii.eqb c sep || has_char sep (a +:+ b)
          = Ascii.eqb c sep || has_char sep a || has_char sep b).
  now rewrite IH, orb_assoc.
Qed.

Lemma split_once_first (sep : ascii) (a b : string) :
  has_char sep a = false ->
  split_once sep (a +:+ String sep b) = [a; b].
Proof.
  intros Ha. unfold split_once.
  assert (H : before sep (a +:+ String sep b) = a
              /\ after sep (a +:+ String sep b) = Some b).
  { induction a as [|c a IH].
    - simpl. now rewrite Ascii.eqb_refl.
    - simpl in Ha. apply orb_false_elim in Ha as [Hc Ha].
      destruct (IH Ha) as [IH1 IH2].
      change (String c a +:+ String sep b) with (String c (a +:+ String sep b)).
      simpl. rewrite Hc, IH1, IH2. now split. }
  destruct H as [-> ->]. reflexivity.
Qed.

Lemma split_once_two (sep : ascii) (s : string) :
  has_char sep s = true ->
  exists a b, split_once sep s = [a; b].
Proof.
  intros H. unfold split_once.
  assert (Hafter : is_Some (after sep s)).
  { induction s as [|c s IH]; [discriminate|].
    simpl in *. destruct (Ascii.eqb c sep); [eauto | apply IH, H]. }
  destruct Hafter as [b ->]. eauto.
Qed.

(** What the string branch does, by the form of the string. *)
Lemma substitute_str_cases (getenv : string -> option string) (s : string) :
  match substitute_str getenv s with
  | Returns _ =>
      Forall (fun name => is_Some (getenv name)) (required_variables (VStr s))
  | Raises e =>
      exists name,
        name ∈ required_variables (VStr s) /\ getenv name = None
        /\ e = ConfigurationError
                 ("Environment variable " +:+ name +:+ " is required but not set")
  end.
Proof.
  unfold substitute_str. cbn [required_variables]. unfold is_placeholder.
  destruct (startswith s "${" && endswith s "}"); cbn [andb negb];
    [|constructor].
  destruct (has_char ":" (slice s 2 (-1))) eqn:Hcolon; cbn [negb].
  - destruct (split_once_two _ _ Hcolon) as (a & b & ->). constructor.
  - destruct (getenv (slice s 2 (-1))) as [v|] eqn:Hget.
    + constructor; [|constructor]. rewrite Hget. eauto.
    + exists (slice s 2 (-1)). split; [apply list_elem_of_singleton; reflexivity|].
      split; [exact Hget | reflexivity].
Qed.

Lemma substitute_env_vars_cases (getenv : string -> option string)
    (config : value) :
  match substitute_env_vars getenv config with
  | Returns _ =>
      Forall (fun name => is_Some (getenv name)) (required_variables config)
  | Raises e =>
      exists name,
        name ∈ required_variables config /\ getenv name = None
        /\ e = ConfigurationError
                 ("Environment variable " +:+ name +:+ " is required but not set")
  end.
Proof.
  induction config as [| b | n | x | s | l IH | l IH] using value_ind_nested;
    try (cbn; constructor).
  - pose proof (substitute_str_cases getenv s) as H.
    cbn [substitute_env_vars]. unfold fmap, outcome_fmap.
    destruct (substitute_str getenv s); exact H.
  - induction IH as [|item l Hitem _ IHl]; [cbn; constructor|].
    cbn [substitute_env_vars required_variables] in *.
    unfold fmap, outcome_fmap, mbind, outcome_bind in *.
    destruct (substitute_env_vars getenv item) as [item'|e].
    + match type of IHl with
      | context [match ?m with
                 | Returns a => Returns (VList a)
                 | Raises e => Raises e
                 end] => destruct m as [rest|e]
      end.
      * apply Forall_app. split; assumption.
      * destruct IHl as (name & Hin & Hrest). exists name.
        split; [apply elem_of_app; right; exact Hin | exact Hrest].
    + destruct Hitem as (name & Hin & Hrest). exists name.
      split; [apply elem_of_app; left; exact Hin | exact Hrest].
  - induction IH as [|[k v] l Hitem _ IHl]; [cbn; constructor|].
    cbn [substitute_env_vars required_variables snd] in *.
    unfold fmap, outcome_fmap, mbind, outcome_bind in *.
    destruct (substitute_env_vars getenv v) as [v'|e].
    + match type of IHl with
      | context [match ?m with
                 | Returns a => Returns (VDict a)
                 | Raises e => Raises e
                 end] => destruct m as [rest|e]
      end.
      * apply Forall_app. split; assumption.
      * destruct IHl as (name & Hin & Hrest). exists name.
        split; [apply elem_of_app; right; exact Hin | exact Hrest].
    + destruct Hitem as (name & Hin & Hrest). exists name.
      split; [apply elem_of_app; left; exact Hin | exact Hrest].
Qed.

(** X21. The placeholder syntax: for a variable name free of colons,
    [${NAME}] is replaced by the value of the variable and raises
    [ConfigurationError] naming the variable when it is not set;
    [${NAME:default}] is replaced by the value of the variable when it is
    set (even to the empty string) and by the default otherwise, and never
    raises.  The default is everything after the first colon: it may itself
    hold colons and braces. *)
Theorem substitute_env_vars_placeholder_syntax
    (getenv : string -> option string) (name dflt : string)
    (Hname : has_char ":" name = false) :
  substitute_env_vars getenv (VStr ("${" +:+ name +:+ "}"))
  = match getenv name with
    | Some v => Returns (VStr v)
    | None =>
        Raises (ConfigurationError
                  ("Environment variable " +:+ name
                   +:+ " is required but not set"))
    end
  /\ substitute_env_vars getenv (VStr ("${" +:+ name +:+ ":" +:+ dflt +:+ "}"))
     = Returns (VStr (match getenv name with Some v => v | None => dflt end)).
Proof.
  split.
  - destruct (placeholder_inside name) as [Hp Hin].
    cbn [substitute_env_vars]. unfold substitute_str.
    unfold is_placeholder in Hp. rewrite Hp, Hin, Hname.
    now destruct (getenv name).
  - destruct (placeholder_inside (name +:+ ":" +:+ dflt)) as [Hp Hin].
    rewrite !string_app_assoc in Hp, Hin.
    cbn [substitute_env_vars]. unfold substitute_str.
    unfold is_placeholder in Hp. rewrite Hp, Hin.
    rewrite has_char_app.
    change (has_char ":" (":" +:+ dflt)) with true. rewrite orb_true_r.
    change (name +:+ ":" +:+ dflt) with (name +:+ String ":" dflt).
    rewrite (split_once_first _ _ _ Hname). reflexivity.
Qed.

(** X21 on the variable SONAR_TOKEN, set, and on a URL as default of a
    variable that is not set. *)
Lemma substitute_env_vars_placeholder_syntax_witness :
  substitute_env_vars example_getenv (VStr "${SONAR_TOKEN}")
  = Returns (VStr "s3cret")
  /\ substitute_env_vars example_getenv (VStr "${SONAR_URL:http://localhost:9000}")
     = Returns (VStr "http://localhost:9000").
Proof.
  split.
  - exact (proj1 (substitute_env_vars_placeholder_syntax
                    example_getenv "SONAR_TOKEN" "" eq_refl)).
  - exact (proj2 (substitute_env_vars_placeholder_syntax
                    example_getenv "SONAR_URL" "http://localhost:9000" eq_refl)).
Defined.

(** X22. A configuration is substituted successfully exactly when every
    variable it requires (the placeholders without a default, at any depth
    of lists and dictionaries) is set; when it is not, the exception is a
    [ConfigurationError] naming a required variable that is not set, and
    nothing else is ever raised. *)
Theorem substitute_env_vars_returns_iff (getenv : string -> option string)
    (config : value) :
  ((exists config', substitute_env_vars getenv config = Returns config')
   <-> Forall (fun name => is_Some (getenv name)) (required_variables config))
  /\ forall e,
       substitute_env_vars getenv config = Raises e ->
       exists name,
         name ∈ required_variables config /\ getenv name = None
         /\ e = ConfigurationError
                  ("Environment variable " +:+ name
                   +:+ " is required but not set").
Proof.
  pose proof (substitute_env_vars_cases getenv config) as H.
  destruct (substitute_env_vars getenv config) as [config'|e0].
  - split; [|discriminate]. split; [intros _; exact H | eauto].
  - split.
    + split; [intros [? [=]]|].
      intros Hall. destruct H as (name & Hin & Hnone & _).
      rewrite Forall_forall in Hall. destruct (Hall name Hin) as [v Hv].
      congruence.
    + intros e [= <-]. exact H.
Qed.

Lemma substitute_str_no_placeholder (getenv : string -> option string)
    (s : string) :
  is_placeholder s = false -> substitute_str getenv s = Returns s.
Proof. unfold substitute_str, is_placeholder. now intros ->. Qed.

(** X23. A configuration in which no string both begins with [${] and ends
    with [}] is returned as it is, whatever the environment: a placeholder
    inside a longer string (a URL built around [${HOST}], say) is not
    substituted, and the keys of dictionaries are never looked at. *)
Theorem substitute_env_vars_without_placeholder
    (getenv : string -> option string) (config : value)
    (Hnone : no_placeholder config = true) :
  substitute_env_vars getenv config = Returns config.
Proof.
  revert Hnone.
  induction config as [| b | n | x | s | l IH | l IH] using value_ind_nested;
    intros Hnone; try reflexivity.
  - cbn [substitute_env_vars no_placeholder] in *.
    apply negb_true_iff in Hnone.
    now rewrite (substitute_str_no_placeholder _ _ Hnone).
  - enough (E : forall l', l' = l ->
               substitute_env_vars getenv (VList l') = Returns (VList l))
      by exact (E l eq_refl).
    induction IH as [|item l Hitem _ IHl]; intros l' ->; [reflexivity|].
    cbn [no_placeholder] in Hnone. apply andb_prop in Hnone as [H1 H2].
    specialize (IHl H2 l eq_refl). specialize (Hitem H1).
    cbn [substitute_env_vars] in *.
    unfold fmap, outcome_fmap, mbind, outcome_bind in *. rewrite Hitem.
    match type of IHl with
    | context [match ?m with
               | Returns a => Returns (VList a)
               | Raises e => Raises e
               end] => destruct m as [rest|e]
    end; [|discriminate]. now injection IHl as ->.
  - enough (E : forall l', l' = l ->
               substitute_env_vars getenv (VDict l') = Returns (VDict l))
      by exact (E l eq_refl).
    induction IH as [|[k v] l Hitem _ IHl]; intros l' ->; [reflexivity|].
    cbn [no_placeholder] in Hnone. apply andb_prop in Hnone as [H1 H2].
    specialize (IHl H2 l eq_refl). specialize (Hitem H1).
    cbn [substitute_env_vars snd] in *.
    unfold fmap, outcome_fmap, mbind, outcome_bind in *. rewrite Hitem.
    match type of IHl with
    | context [match ?m with
               | Returns a => Returns (VDict a)
               | Raises e => Raises e
               end] => destruct m as [rest|e]
    end; [|discriminate]. now injection IHl as ->.
Qed.

(** X23 on a configuration whose URL holds a placeholder in the middle. *)
Lemma substitute_env_vars_without_placeholder_witness :
  substitute_env_vars example_getenv
    (VDict [("${SONAR_TOKEN}",
             VList [VStr "http://${SONAR_HOST}/api"; VInt 9000])])
  = Returns (VDict [("${SONAR_TOKEN}",
                     VList [VStr "http://${SONAR_HOST}/api"; VInt 9000])]).
Proof.
  apply substitute_env_vars_without_placeholder. reflexivity.
Defined.

(** ** llm/factory.py: LLMFactory *)

Lemma assoc_dict_set {V : Type} (d : list (string * V)) (k k' : string) (v : V) :
  assoc k' (dict_set d k v) = if String.eqb k' k then Some v else assoc k' d.
Proof.
  induction d as [|[k0 v0] d IH]; cbn [dict_set assoc].
  - reflexivity.
  - destruct (String.eqb k k0) eqn:E; cbn [assoc].
    + apply String.eqb_eq in E. subst k0.
      now destruct (String.eqb k' k).
    + rewrite IH. destruct (String.eqb k' k0) eqn:E'; [|reflexivity].
      apply String.eqb_eq in E'. subst k0.
      rewrite String.eqb_sym in E. now rewrite E.
Qed.

Lemma assoc_None_not_key {V : Type} (d : list (string * V)) (k : string) :
  assoc k d = None <-> k ∉ map fst d.
Proof.
  induction d as [|[k0 v0] d IH]; cbn [assoc map fst].
  - split; [intros _; apply not_elem_of_nil | reflexivity].
  - rewrite not_elem_of_cons. destruct (String.eqb k k0) eqn:E.
    + apply String.eqb_eq in E. split; [discriminate | intros [? _]; contradiction].
    + apply String.eqb_neq in E. rewrite IH. tauto.
Qed.

Lemma keys_dict_set {V : Type} (d : list (string * V)) (k : string) (v : V) :
  map fst (dict_set d k v)
  = match assoc k d with
    | Some _ => map fst d
    | None => map fst d ++ [k]
    end.
Proof.
  induction d as [|[k0 v0] d IH]; cbn [dict_set assoc map fst app].
  - reflexivity.
  - destruct (String.eqb k k0); cbn [map fst]; [reflexivity|].
    rewrite IH. now destruct (assoc k d).
Qed.

(** X24. [create] returns a provider or raises an [LLMError], whatever the
    registry and the name, as long as the provider classes raise only
    exceptions deriving from [Exception]: a name that is not registered
    gives no [KeyError], and an exception of the provider class, be it of a
    subclass of [LLMError], comes out as a plain [LLMError].  For a name
    that is not registered the message names it and every registered
    provider. *)
Theorem create_raises_only_LLMError {P : Type}
    (providers : list (string * (dict -> outcome P)))
    (provider_name : string) (kwargs : dict) (e : exn)
    (Hclasses : forall name provider_class,
        assoc name providers = Some provider_class ->
        raises_only_exceptions (provider_class kwargs))
    (Hraises : create providers provider_name kwargs = Raises e) :
  exn_type e = "LLMError"
  /\ mentions (exn_msg e) provider_name
  /\ (provider_name ∉ list_providers providers ->
      forall name, name ∈ list_providers providers ->
        mentions (exn_msg e) name).
Proof.
  unfold create in Hraises.
  destruct (assoc provider_name providers) as [provider_class|] eqn:E.
  - specialize (Hclasses _ _ E).
    destruct (provider_class kwargs) as [p|e0] eqn:Ecall; [discriminate|].
    rewrite (Hclasses e0 eq_refl) in Hraises. injection Hraises as <-.
    split; [reflexivity|]. split.
    + cbn [exn_msg LLMError]. apply mentions_app_l, mentions_app_r, mentions_refl.
    + intros Hnot. apply assoc_None_not_key in Hnot. congruence.
  - injection Hraises as <-. split; [reflexivity|]. split.
    + cbn [exn_msg LLMError]. apply mentions_app_l, mentions_app_r, mentions_refl.
    + intros _ name Hin. cbn [exn_msg LLMError].
      do 3 apply mentions_app_l. apply join_mentions.
      apply list_elem_of_In. exact Hin.
Qed.

(** X24 on the registry of the module and a provider that is not in it. *)
Lemma create_raises_only_LLMError_witness :
  exn_type (LLMError
    "Unknown LLM provider 'anthropic'. Available providers: openai")
  = "LLMError"
  /\ mentions "Unknown LLM provider 'anthropic'. Available providers: openai"
       "anthropic".
Proof.
  pose proof (create_raises_only_LLMError
                (shipped_providers rejecting_client) "anthropic" ∅
                (LLMError
                   "Unknown LLM provider 'anthropic'. Available providers: openai"))
    as H.
  destruct H as (H1 & H2 & _).
  - intros name provider_class Hassoc e He.
    cbn [shipped_providers assoc] in Hassoc.
    destruct (String.eqb name "openai"); [|discriminate].
    injection Hassoc as <-. revert He. vm_compute. intros [= <-]. reflexivity.
  - reflexivity.
  - split; [exact H1 | exact H2].
Defined.

(** X25. Registering and creating: after [register_provider name cls],
    [create name] calls [cls], whatever was registered under that name
    before; the other names are created as before; and the list of
    providers gains the name at its end, or keeps its order when the name
    was there already. *)
Theorem register_provider_then_create {P : Type}
    (providers : list (string * (dict -> outcome P)))
    (name : string) (cls : dict -> outcome P) (kwargs : dict) :
  create (register_provider providers name cls) name kwargs
  = create [(name, cls)] name kwargs
  /\ (forall other provider_class,
        other <> name ->
        assoc other providers = Some provider_class ->
        create (register_provider providers name cls) other kwargs
        = create providers other kwargs)
  /\ list_providers (register_provider providers name cls)
     = if bool_decide (name ∈ list_providers providers)
       then list_providers providers
       else list_providers providers ++ [name].
Proof.
  unfold register_provider, list_providers. split; [|split].
  - unfold create. rewrite assoc_dict_set. cbn [assoc].
    now rewrite String.eqb_refl.
  - intros other provider_class Hne Hassoc. unfold create.
    rewrite assoc_dict_set. apply String.eqb_neq in Hne.
    now rewrite Hne, Hassoc.
  - rewrite keys_dict_set.
    destruct (assoc name providers) eqn:E.
    + rewrite bool_decide_eq_true_2; [reflexivity|].
      destruct (decide (name ∈ map fst providers)) as [|Hn]; [assumption|].
      apply assoc_None_not_key in Hn. congruence.
    + rewrite bool_decide_eq_false_2; [reflexivity|].
      now apply assoc_None_not_key.
Qed.

(** X26. The registry of the module knows "openai" only.  [create] with any
    other name (the schema also lists anthropic, azure_openai and google)
    raises the [LLMError] "Unknown LLM provider ... Available providers:
    openai".  [create] of "openai" without [api_key] or without [model]
    raises an [LLMError] that names the missing key, the [ValueError] of
    [_validate_config] being wrapped, and does not reach the client; with
    both keys the client is built with the defaults 0.2 and 4000 for
    [temperature] and [max_tokens], the provider keeps the keyword
    arguments, and a failure of the client comes out as a plain [LLMError]
    around the message of the [LLMAuthenticationError]. *)
Theorem create_openai {Client : Type}
    (ChatOpenAI : value -> value -> value -> value -> outcome Client)
    (kwargs : dict) :
  (forall provider_name, provider_name <> "openai" ->
     create (shipped_providers ChatOpenAI) provider_name kwargs
     = Raises (LLMError ("Unknown LLM provider '" +:+ provider_name
                         +:+ "'. Available providers: openai")))
  /\ (forall key, key = "api_key" \/ key = "model" -> kwargs !! key = None ->
      exists msg,
        create (shipped_providers ChatOpenAI) "openai" kwargs
        = Raises (LLMError ("Failed to create provider 'openai': "
                            +:+ "Missing required configuration keys: " +:+ msg))
        /\ mentions msg key)
  /\ (forall api_key model,
        kwargs !! "api_key" = Some api_key -> kwargs !! "model" = Some model ->
        create (shipped_providers ChatOpenAI) "openai" kwargs
        = match ChatOpenAI api_key model
                  (get_default kwargs "temperature" (VFloat (Finite (2 # 10))))
                  (get_default kwargs "max_tokens" (VInt 4000)) with
          | Returns c =>
              Returns {| provider_config := kwargs; provider_client := c |}
          | Raises e =>
              if isinstance e "Exception"
              then Raises (LLMError
                     ("Failed to create provider 'openai': "
                      +:+ "OpenAI initialization failed: " +:+ exn_msg e))
              else Raises e
          end).
Proof.
  split; [|split].
  - intros provider_name Hne. unfold create, shipped_providers. cbn [assoc].
    apply String.eqb_neq in Hne. rewrite Hne. reflexivity.
  - intros key Hkey Hnone.
    unfold create, shipped_providers. cbn [assoc].
    change (String.eqb "openai" "openai") with true. cbv iota.
    unfold OpenAIProvider_init, _validate_config. cbn [List.filter].
    unfold contains.
    destruct Hkey as [-> | ->]; rewrite Hnone; cbn [negb].
    + destruct (kwargs !! "model");
        (eexists; split; [reflexivity|]); cbn [negb].
      * apply mentions_refl.
      * exists "", ", model". reflexivity.
    + destruct (kwargs !! "api_key");
        (eexists; split; [reflexivity|]); cbn [negb].
      * apply mentions_refl.
      * exists "api_key, ", "". reflexivity.
  - intros api_key model Hkey Hmodel.
    unfold create, shipped_providers. cbn [assoc].
    change (String.eqb "openai" "openai") with true. cbv iota.
    unfold OpenAIProvider_init, _validate_config, subscript. cbn [List.filter].
    unfold contains. rewrite Hkey, Hmodel. cbn [negb].
    unfold mbind, outcome_bind.
    destruct (ChatOpenAI api_key model _ _) as [c|e]; [reflexivity|].
    destruct (isinstance e "Exception") eqn:E; [reflexivity|].
    now rewrite E.
Qed.
